(** * moonship-core: the coordination layer, embedded and verified

    A shallow embedding of [moonship/core/redis.py] (connection manager,
    shared cache, bulk operation, message bus, session store) and of the
    command and strategy paths of [moonship/core/api.py], followed by the
    properties proved of them.

    Conventions.
    - Python exceptions are values of [exn]; a call that can raise returns a
      [result].  Where the source mutates state before it raises, the
      function returns the state next to the result.
    - The Redis server is a finite map from keys to typed values with an
      optional expiry deadline in milliseconds; every command takes the
      current time [now].  The client library (redis-py) and the session
      library (aiohttp_session) are not part of the repository: the parts
      of them the source calls are modelled in [Redis] and [AioSession]
      and say so.
    - Strings are byte strings; the whitespace of [str.split()] is the
      ASCII one. *)

From Stdlib Require Import ZArith Ascii String DecimalString DecimalZ Lia.
From stdpp Require Import base option list gmap strings.

#[local] Set Warnings "-register-all,-clear-no-such-hyp".
#[local] Open Scope string_scope.
#[local] Open Scope Z_scope.
#[local] Open Scope list_scope.

(* ===================================================================== *)
(** * Part I: definitions                                                 *)
(* ===================================================================== *)

(** ** Exceptions and results *)

Inductive exn : Type :=
| CancelledError                       (* asyncio; a BaseException *)
| KeyError (key : string)
| ValueError (msg : string)
| AttributeError (msg : string)
| TimeoutError
| JSONDecodeError
| DataError (msg : string)             (* redis-py, raised client side *)
| ResponseError (msg : string)         (* redis-py, an error reply of the server *)
| StartUpException (msg : string)
| HTTPException (reason : string) (status : Z)
| OtherException (name : string).

(** [except Exception] catches everything but [CancelledError]. *)
Definition is_Exception (e : exn) : bool :=
  match e with
  | CancelledError => false
  | _ => true
  end.

Inductive result (A : Type) : Type :=
| Ok (a : A)
| Raise (e : exn).
Arguments Ok {A} a.
Arguments Raise {A} e.

Definition bind {A B : Type} (r : result A) (k : A -> result B) : result B :=
  match r with
  | Ok a => k a
  | Raise e => Raise e
  end.

Notation "x <~ r ;; k" := (bind r (fun x => k))
  (at level 100, r at next level, right associativity).

(** ** Python string primitives *)

Module Py.

(** [s.split(sep)] cut at every character satisfying [p]: the fields between
    the separators, empty ones included ([''.split(',') == ['']]). *)
Fixpoint fields (p : ascii -> bool) (s : string) : list string :=
  match s with
  | EmptyString => [EmptyString]
  | String c s' =>
      if p c then EmptyString :: fields p s'
      else match fields p s' with
           | w :: ws => String c w :: ws
           | [] => [String c EmptyString]
           end
  end.

(** [s.split(",")] and the like: one separator character. *)
Definition split_sep (sep : ascii) (s : string) : list string :=
  fields (Ascii.eqb sep) s.

(** [str.isspace] on one ASCII character: TAB, LF, VT, FF, CR, FS, GS, RS,
    US and the space. *)
Definition isspace (c : ascii) : bool :=
  let n := N_of_ascii c in
  ((9 <=? n) && (n <=? 13) || (28 <=? n) && (n <=? 32))%N.

Definition nonempty (s : string) : bool :=
  match s with
  | EmptyString => false
  | String _ _ => true
  end.

(** [s.split()]: runs of whitespace separate, no empty field is kept. *)
Definition split (s : string) : list string :=
  List.filter nonempty (fields isspace s).

(** [str(n)] for an [int]. *)
Definition str_of_int (z : Z) : string :=
  NilZero.string_of_int (Z.to_int z).

(** [int(s)] on a string of an optional minus sign and decimal digits;
    anything else is a [ValueError] here (Python itself also accepts a plus
    sign, surrounding blanks and underscores). *)
Definition int_of_str (s : string) : result Z :=
  match NilZero.int_of_string s with
  | Some d => Ok (Z.of_int d)
  | None => Raise (ValueError "invalid literal for int()")
  end.

(** [s.startswith(p)] *)
Definition startswith (p s : string) : bool := String.prefix p s.

(** [s[1:]] *)
Definition tail (s : string) : string :=
  match s with
  | EmptyString => EmptyString
  | String _ s' => s'
  end.

End Py.

(** ** The Redis server and the client calls the source makes

    Not part of the repository.  The server keeps, under each key, a list,
    a set or a hash, and optionally a deadline; a key whose deadline has
    passed is absent for every command; a container that becomes empty is
    removed with its key; a command on a value of another type answers
    WRONGTYPE, which redis-py raises as [ResponseError]. *)

Module Redis.

Inductive rvalue : Type :=
| RList (l : list string)
| RSet (s : gset string)
| RHash (h : gmap string string).

Record entry : Type := Entry { e_value : rvalue; e_deadline : option Z }.

Abbreviation db := (gmap string entry).

Definition wrongtype : exn :=
  ResponseError "WRONGTYPE Operation against a key holding the wrong kind of value".

Definition live (now : Z) (e : entry) : bool :=
  match e_deadline e with
  | None => true
  | Some t => bool_decide (now < t)
  end.

(** The entry a command sees under [k] at time [now]. *)
Definition find (now : Z) (d : db) (k : string) : option entry :=
  match d !! k with
  | Some e => if live now e then Some e else None
  | None => None
  end.

Definition is_empty (v : rvalue) : bool :=
  match v with
  | RList l => bool_decide (l = [])
  | RSet s => bool_decide (s = ∅)
  | RHash h => bool_decide (h = ∅)
  end.

(** Write a value back; an empty container takes its key with it. *)
Definition put (d : db) (k : string) (v : rvalue) (t : option Z) : db :=
  if is_empty v then delete k d else <[k := Entry v t]> d.

Definition deadline_at (now : Z) (d : db) (k : string) : option Z :=
  match find now d k with
  | Some e => e_deadline e
  | None => None
  end.

(** *** Lists *)

Definition lpush (now : Z) (d : db) (k e : string) : db * result Z :=
  match find now d k with
  | None => (<[k := Entry (RList [e]) None]> d, Ok 1)
  | Some (Entry (RList l) t) =>
      (<[k := Entry (RList (e :: l)) t]> d, Ok (Z.of_nat (S (length l))))
  | Some _ => (d, Raise wrongtype)
  end.

Definition rpush (now : Z) (d : db) (k e : string) : db * result Z :=
  match find now d k with
  | None => (<[k := Entry (RList [e]) None]> d, Ok 1)
  | Some (Entry (RList l) t) =>
      (<[k := Entry (RList (l ++ [e])) t]> d, Ok (Z.of_nat (S (length l))))
  | Some _ => (d, Raise wrongtype)
  end.

Definition lpop (now : Z) (d : db) (k : string) : db * result (option string) :=
  match find now d k with
  | None => (d, Ok None)
  | Some (Entry (RList l) t) =>
      match l with
      | [] => (d, Ok None)
      | x :: l' => (put d k (RList l') t, Ok (Some x))
      end
  | Some _ => (d, Raise wrongtype)
  end.

Definition rpop (now : Z) (d : db) (k : string) : db * result (option string) :=
  match find now d k with
  | None => (d, Ok None)
  | Some (Entry (RList l) t) =>
      match List.rev l with
      | [] => (d, Ok None)
      | x :: r => (put d k (RList (List.rev r)) t, Ok (Some x))
      end
  | Some _ => (d, Raise wrongtype)
  end.

(** Remove the first [n] elements equal to [e], head first. *)
Fixpoint remove_first_n (n : nat) (e : string) (l : list string) : list string :=
  match n, l with
  | O, _ => l
  | _, [] => []
  | S n', x :: l' =>
      if decide (x = e) then remove_first_n n' e l'
      else x :: remove_first_n n e l'
  end.

(** LREM key count element: [count > 0] removes that many from the head,
    [count < 0] that many from the tail, [count = 0] removes all. *)
Definition lrem_list (count : Z) (e : string) (l : list string) : list string :=
  if decide (count = 0) then List.filter (fun x => negb (bool_decide (x = e))) l
  else if decide (0 < count) then remove_first_n (Z.to_nat count) e l
  else List.rev (remove_first_n (Z.to_nat (- count)) e (List.rev l)).

Definition lrem (now : Z) (d : db) (k : string) (count : Z) (e : string)
  : db * result Z :=
  match find now d k with
  | None => (d, Ok 0)
  | Some (Entry (RList l) t) =>
      let l' := lrem_list count e l in
      (put d k (RList l') t, Ok (Z.of_nat (length l - length l')))
  | Some _ => (d, Raise wrongtype)
  end.

Definition lindex (now : Z) (d : db) (k : string) (i : Z) : result (option string) :=
  match find now d k with
  | None => Ok None
  | Some (Entry (RList l) _) =>
      if decide (0 <= i) then Ok (l !! Z.to_nat i)
      else if decide (0 <= Z.of_nat (length l) + i)
           then Ok (l !! Z.to_nat (Z.of_nat (length l) + i))
           else Ok None
  | Some _ => Raise wrongtype
  end.

(** LRANGE key start stop, both ends inclusive, negative offsets counting
    from the tail. *)
Definition lrange_list (start stop : Z) (l : list string) : list string :=
  let n := Z.of_nat (length l) in
  let a := if decide (start < 0) then Z.max (n + start) 0 else start in
  let b := if decide (stop < 0) then n + stop else Z.min stop (n - 1) in
  if decide (a <= b) then take (Z.to_nat (b - a + 1)) (drop (Z.to_nat a) l) else [].

Definition lrange (now : Z) (d : db) (k : string) (start stop : Z)
  : result (list string) :=
  match find now d k with
  | None => Ok []
  | Some (Entry (RList l) _) => Ok (lrange_list start stop l)
  | Some _ => Raise wrongtype
  end.

(** *** Sets *)

Definition sadd (now : Z) (d : db) (k e : string) : db * result Z :=
  match find now d k with
  | None => (<[k := Entry (RSet {[e]}) None]> d, Ok 1)
  | Some (Entry (RSet s) t) =>
      (<[k := Entry (RSet ({[e]} ∪ s)) t]> d, Ok (if decide (e ∈ s) then 0 else 1))
  | Some _ => (d, Raise wrongtype)
  end.

Definition srem (now : Z) (d : db) (k e : string) : db * result Z :=
  match find now d k with
  | None => (d, Ok 0)
  | Some (Entry (RSet s) t) =>
      (put d k (RSet (s ∖ {[e]})) t, Ok (if decide (e ∈ s) then 1 else 0))
  | Some _ => (d, Raise wrongtype)
  end.

Definition smembers (now : Z) (d : db) (k : string) : result (gset string) :=
  match find now d k with
  | None => Ok ∅
  | Some (Entry (RSet s) _) => Ok s
  | Some _ => Raise wrongtype
  end.

(** *** Hashes *)

(** HSET key field value [field value ...]: the given fields are set, the
    others stay. *)
Definition hset (now : Z) (d : db) (k : string) (mapping : gmap string string)
  : db * result Z :=
  match find now d k with
  | None => (<[k := Entry (RHash mapping) None]> d, Ok (Z.of_nat (size mapping)))
  | Some (Entry (RHash h) t) =>
      (<[k := Entry (RHash (mapping ∪ h)) t]> d,
       Ok (Z.of_nat (size (mapping ∖ h))))
  | Some _ => (d, Raise wrongtype)
  end.

Definition hget (now : Z) (d : db) (k f : string) : result (option string) :=
  match find now d k with
  | None => Ok None
  | Some (Entry (RHash h) _) => Ok (h !! f)
  | Some _ => Raise wrongtype
  end.

Definition hgetall (now : Z) (d : db) (k : string) : result (gmap string string) :=
  match find now d k with
  | None => Ok ∅
  | Some (Entry (RHash h) _) => Ok h
  | Some _ => Raise wrongtype
  end.

(** *** Keys *)

Definition del (now : Z) (d : db) (k : string) : db * result Z :=
  match find now d k with
  | None => (delete k d, Ok 0)
  | Some _ => (delete k d, Ok 1)
  end.

(** PEXPIRE key ms: the deadline becomes [now + ms]; a time that is not
    positive deletes the key at once. *)
Definition pexpire (now : Z) (d : db) (k : string) (ms : Z) : db * result Z :=
  match find now d k with
  | None => (d, Ok 0)
  | Some (Entry v _) =>
      if decide (ms <= 0) then (delete k d, Ok 1)
      else (<[k := Entry v (Some (now + ms))]> d, Ok 1)
  end.

(** *** The client: what redis-py checks before it sends *)

(** [hset(name, mapping=m)] raises [DataError] when there is nothing to set. *)
Definition hset_check (mapping : gmap string string) : result unit :=
  if decide (mapping = ∅) then Raise (DataError "'hset' with no key value pairs")
  else Ok tt.

(** *** Pipelines *)

Inductive command : Type :=
| LPUSH (k e : string)
| RPUSH (k e : string)
| LPOP (k : string)
| RPOP (k : string)
| LREM (k : string) (count : Z) (e : string)
| SADD (k e : string)
| SREM (k e : string)
| HSET (k : string) (mapping : gmap string string)
| DEL (k : string)
| PEXPIRE (k : string) (ms : Z).

Definition forget {A : Type} (r : db * result A) : db * result unit :=
  (r.1, match r.2 with Ok _ => Ok tt | Raise e => Raise e end).

(** One queued command; its reply is dropped, its error kept. *)
Definition exec (now : Z) (d : db) (c : command) : db * result unit :=
  match c with
  | LPUSH k e => forget (lpush now d k e)
  | RPUSH k e => forget (rpush now d k e)
  | LPOP k => forget (lpop now d k)
  | RPOP k => forget (rpop now d k)
  | LREM k n e => forget (lrem now d k n e)
  | SADD k e => forget (sadd now d k e)
  | SREM k e => forget (srem now d k e)
  | HSET k m => forget (hset now d k m)
  | DEL k => forget (del now d k)
  | PEXPIRE k ms => forget (pexpire now d k ms)
  end.

(** The queue runs in order and in one step of the server (MULTI/EXEC, or
    one round trip); a command that errs does not stop the ones after it,
    and [execute] raises the first error once all have run. *)
Fixpoint run_queue (now : Z) (d : db) (cs : list command) : db * option exn :=
  match cs with
  | [] => (d, None)
  | c :: cs' =>
      let '(d1, r) := exec now d c in
      let '(d2, err) := run_queue now d1 cs' in
      (d2, match r with Raise e => Some e | Ok _ => err end)
  end.

Definition execute (now : Z) (d : db) (cs : list command) : db * result unit :=
  let '(d', err) := run_queue now d cs in
  (d', match err with Some e => Raise e | None => Ok tt end).

End Redis.

(** ** redis.py: the process-wide connection *)

(** A configuration value, as [Config.get] hands it out. *)
Inductive cfgval : Type :=
| CStr (s : string)
| CBool (b : bool)
| CInt (z : Z).

(** Python truthiness. *)
Definition truthy (v : cfgval) : bool :=
  match v with
  | CStr s => Py.nonempty s
  | CBool b => b
  | CInt z => negb (z =? 0)
  end.

Record Config : Type := {
  settings : gmap string cfgval;        (* [config.get(key)] *)
  environ : gmap string string          (* [os.environ] *)
}.

Record options : Type := {
  decode_responses : bool;
  ssl_cert_reqs : option (option string);     (* unset / None / "required" *)
  ssl_check_hostname : option cfgval
}.

(** The client object [aioredis.from_url] returns.  [c_id] tells the
    clients made in one process apart. *)
Record client : Type := {
  c_id : nat;
  c_url : string;
  c_options : options
}.

(** The module globals [redis] and [redis_ref_count], with a record of what
    happened to the clients: how many [from_url] made, and which ones were
    closed, oldest first. *)
Record globals : Type := {
  redis : option client;
  redis_ref_count : Z;
  made : nat;
  closed : list nat
}.

Definition initial_globals : globals :=
  {| redis := None; redis_ref_count := 0; made := 0; closed := [] |}.

Definition redis_options (config : Config) (url : string) : options :=
  if Py.startswith "rediss://" url then
    let ssl_verify_cert :=
      default (CBool true) (settings config !! "moonship.redis.ssl_verify_cert") in
    {| decode_responses := true;
       ssl_cert_reqs := Some (if truthy ssl_verify_cert then Some "required" else None);
       ssl_check_hostname := Some ssl_verify_cert |}
  else
    {| decode_responses := true; ssl_cert_reqs := None; ssl_check_hostname := None |}.

(** The URL of the configuration, read through the environment when it is
    written [$NAME]. *)
Definition redis_url (config : Config) : result string :=
  match settings config !! "moonship.redis.url" with
  | Some (CStr url) =>
      if (1 <? String.length url)%nat && Py.startswith "$" url then
        match environ config !! Py.tail url with
        | Some v => Ok v
        | None => Raise (StartUpException ("No " +:+ Py.tail url +:+ " environment variable set"))
        end
      else Ok url
  | _ => Raise (StartUpException "Redis URL not configured")
  end.

Definition init_redis (config : Config) (g : globals) : globals * result client :=
  match redis g with
  | None =>
      match redis_url config with
      | Raise e => (g, Raise e)
      | Ok url =>
          let c := {| c_id := made g; c_url := url; c_options := redis_options config url |} in
          ({| redis := Some c;
              redis_ref_count := redis_ref_count g + 1;
              made := S (made g);
              closed := closed g |},
           Ok c)
      end
  | Some c =>
      ({| redis := Some c;
          redis_ref_count := redis_ref_count g + 1;
          made := made g;
          closed := closed g |},
       Ok c)
  end.

(** [redis.close()] followed by [redis.connection_pool.disconnect()] is one
    entry of [closed].  The global [redis] is read, never assigned. *)
Definition close_redis (g : globals) : globals * result unit :=
  let n := redis_ref_count g - 1 in
  if decide (n = 0) then
    match redis g with
    | Some c =>
        ({| redis := redis g; redis_ref_count := n; made := made g;
            closed := closed g ++ [c_id c] |},
         Ok tt)
    | None =>
        ({| redis := redis g; redis_ref_count := n; made := made g; closed := closed g |},
         Raise (AttributeError "'NoneType' object has no attribute 'close'"))
    end
  else
    ({| redis := redis g; redis_ref_count := n; made := made g; closed := closed g |},
     Ok tt).

(** A caller of the connection manager. *)
Inductive conn_call : Type :=
| Acquire (config : Config)
| Release.

Definition conn_step (g : globals) (c : conn_call) : globals :=
  match c with
  | Acquire config => (init_redis config g).1
  | Release => (close_redis g).1
  end.

Definition conn_run (g : globals) (cs : list conn_call) : globals :=
  foldl conn_step g cs.

(** ** redis.py: RedisSharedCacheBulkOp *)

Module RedisSharedCacheBulkOp.
Import Redis.

(** The pipeline object: the queued commands, oldest first. *)
Record t : Type := {
  pipeline : list command;
  transaction : bool
}.

Definition queue (b : t) (c : command) : t :=
  {| pipeline := pipeline b ++ [c]; transaction := transaction b |}.

Definition list_push_head (b : t) (storage_key element : string) : t :=
  queue b (LPUSH storage_key element).

Definition list_push_tail (b : t) (storage_key element : string) : t :=
  queue b (RPUSH storage_key element).

Definition list_pop_head (b : t) (storage_key : string) : t :=
  queue b (LPOP storage_key).

Definition list_pop_tail (b : t) (storage_key : string) : t :=
  queue b (RPOP storage_key).

Definition list_remove (b : t) (storage_key element : string) : t :=
  queue b (LREM storage_key 0 element).

Definition set_add (b : t) (storage_key element : string) : t :=
  queue b (SADD storage_key element).

Definition set_remove (b : t) (storage_key element : string) : t :=
  queue b (SREM storage_key element).

Definition map_put (b : t) (storage_key : string) (entries : gmap string string)
  : result t :=
  _ <~ hset_check entries ;;
  Ok (queue b (HSET storage_key entries)).

Definition delete (b : t) (storage_key : string) : t :=
  queue b (DEL storage_key).

Definition expire (b : t) (storage_key : string) (time_msec : Z) : t :=
  queue b (PEXPIRE storage_key time_msec).

Definition execute (now : Z) (d : db) (b : t) : db * result unit :=
  Redis.execute now d (pipeline b).

End RedisSharedCacheBulkOp.

(** ** redis.py: RedisSharedCache

    Every method goes through the global [redis]; the functions below are
    the methods on an open connection, acting on the server's state. *)

Module RedisSharedCache.
Import Redis.

Definition start_bulk (transaction : bool) : RedisSharedCacheBulkOp.t :=
  {| RedisSharedCacheBulkOp.pipeline := [];
     RedisSharedCacheBulkOp.transaction := transaction |}.

Definition list_push_head (now : Z) (d : db) (storage_key element : string)
  : db * result unit :=
  forget (lpush now d storage_key element).

Definition list_push_tail (now : Z) (d : db) (storage_key element : string)
  : db * result unit :=
  forget (rpush now d storage_key element).

Definition list_pop_head (now : Z) (d : db) (storage_key : string)
  : db * result (option string) :=
  lpop now d storage_key.

Definition list_pop_tail (now : Z) (d : db) (storage_key : string)
  : db * result (option string) :=
  rpop now d storage_key.

Definition list_remove (now : Z) (d : db) (storage_key element : string)
  : db * result unit :=
  forget (lrem now d storage_key 0 element).

Definition list_get_head (now : Z) (d : db) (storage_key : string)
  : result (option string) :=
  lindex now d storage_key 0.

Definition list_get_tail (now : Z) (d : db) (storage_key : string)
  : result (option string) :=
  lindex now d storage_key (-1).

Definition list_get_elements (now : Z) (d : db) (storage_key : string)
  : result (list string) :=
  lrange now d storage_key 0 (-1).

Definition set_add (now : Z) (d : db) (storage_key element : string)
  : db * result unit :=
  forget (sadd now d storage_key element).

Definition set_remove (now : Z) (d : db) (storage_key element : string)
  : db * result unit :=
  forget (srem now d storage_key element).

Definition set_get_elements (now : Z) (d : db) (storage_key : string)
  : result (gset string) :=
  smembers now d storage_key.

Definition map_put (now : Z) (d : db) (storage_key : string)
    (entries : gmap string string) (append : bool) : db * result unit :=
  if negb append then
    match RedisSharedCacheBulkOp.map_put
            (RedisSharedCacheBulkOp.delete (start_bulk true) storage_key)
            storage_key entries with
    | Ok b => RedisSharedCacheBulkOp.execute now d b
    | Raise e => (d, Raise e)
    end
  else
    match hset_check entries with
    | Ok _ => forget (hset now d storage_key entries)
    | Raise e => (d, Raise e)
    end.

Definition map_get (now : Z) (d : db) (storage_key key : string)
  : result (option string) :=
  hget now d storage_key key.

Definition map_get_entries (now : Z) (d : db) (storage_key : string)
  : result (gmap string string) :=
  hgetall now d storage_key.

Definition delete (now : Z) (d : db) (storage_key : string) : db * result unit :=
  forget (del now d storage_key).

Definition expire (now : Z) (d : db) (storage_key : string) (time_msec : Z)
  : db * result unit :=
  forget (pexpire now d storage_key time_msec).

End RedisSharedCache.

(** ** redis.py: RedisMessageBus *)

Module RedisMessageBus.

(** The pub/sub object of the client (not part of the repository): the
    channels the connection is subscribed to, and the calls made on it,
    oldest first. *)
Inductive pubsub_call : Type :=
| SUBSCRIBE (channel : string)
| UNSUBSCRIBE (channel : string).

Record PubSub : Type := {
  channels : gset string;
  calls : list pubsub_call
}.

Definition new_pubsub : PubSub := {| channels := ∅; calls := [] |}.

Definition pubsub_subscribe (ps : PubSub) (channel : string) : PubSub :=
  {| channels := {[channel]} ∪ channels ps; calls := calls ps ++ [SUBSCRIBE channel] |}.

Definition pubsub_unsubscribe (ps : PubSub) (channel : string) : PubSub :=
  {| channels := channels ps ∖ {[channel]}; calls := calls ps ++ [UNSUBSCRIBE channel] |}.

(** What [get_message] hands to the listener. *)
Record message : Type := { m_channel : string; m_data : string }.

Inductive received : Type :=
| Got (msg : option message)             (* [None]: nothing this time *)
| GetRaised (e : exn).                   (* the await raised, e.g. cancelled *)

Inductive status : Type :=
| Listening                              (* still in [while True] *)
| Finished                               (* cancelled, returned quietly *)
| Died (e : exn).                        (* an exception left [_listen] *)

Section Bus.

(** Handlers are compared the way [in] and [list.remove] compare them. *)
Context {H : Type} `{EqDecision H}.

Record t : Type := {
  _channel_handlers : gmap string (list H);
  _pubsub : option PubSub
}.

(** [__init__] *)
Definition new : t := {| _channel_handlers := ∅; _pubsub := None |}.

(** [start], on the process-wide connection. *)
Definition start (config : Config) (g : globals) (b : t) : globals * t * result unit :=
  match init_redis config g with
  | (g', Ok _) =>
      (g', {| _channel_handlers := _channel_handlers b; _pubsub := Some new_pubsub |}, Ok tt)
  | (g', Raise e) => (g', b, Raise e)
  end.

(** A bus after [__init__] and a [start] that went through. *)
Definition started : t := {| _channel_handlers := ∅; _pubsub := Some new_pubsub |}.

(** [l.remove(x)]: the first element equal to [x] goes. *)
Fixpoint remove_first (x : H) (l : list H) : list H :=
  match l with
  | [] => []
  | y :: l' => if decide (y = x) then l' else y :: remove_first x l'
  end.

Definition subscribe (b : t) (channel : string) (handler : H) : t * result unit :=
  let known : result (t * list H) :=
    match _channel_handlers b !! channel with
    | None =>
        match _pubsub b with
        | None => Raise (AttributeError "'NoneType' object has no attribute 'subscribe'")
        | Some ps =>
            Ok ({| _channel_handlers := <[channel := []]> (_channel_handlers b);
                   _pubsub := Some (pubsub_subscribe ps channel) |}, [])
        end
    | Some handlers => Ok (b, handlers)
    end in
  match known with
  | Raise e => (b, Raise e)
  | Ok (b1, handlers) =>
      if decide (handler ∈ handlers) then (b1, Ok tt)
      else ({| _channel_handlers := <[channel := handlers ++ [handler]]> (_channel_handlers b1);
               _pubsub := _pubsub b1 |}, Ok tt)
  end.

Definition unsubscribe (b : t) (channel : string) (handler : option H)
  : t * result unit :=
  let removed : result (gmap string (list H)) :=
    match handler with
    | None =>
        match _channel_handlers b !! channel with
        | None => Raise (KeyError channel)
        | Some _ => Ok (delete channel (_channel_handlers b))
        end
    | Some h =>
        match _channel_handlers b !! channel with
        | Some handlers =>
            if decide (h ∈ handlers) then
              let handlers' := remove_first h handlers in
              if decide (length handlers' = 0%nat)
              then Ok (delete channel (_channel_handlers b))
              else Ok (<[channel := handlers']> (_channel_handlers b))
            else Raise (ValueError "list.remove(x): x not in list")
        | None => Ok (_channel_handlers b)
        end
    end in
  match removed with
  | Raise e => (b, Raise e)
  | Ok hs =>
      match hs !! channel with
      | Some _ => ({| _channel_handlers := hs; _pubsub := _pubsub b |}, Ok tt)
      | None =>
          match _pubsub b with
          | Some ps =>
              ({| _channel_handlers := hs;
                  _pubsub := Some (pubsub_unsubscribe ps channel) |}, Ok tt)
          | None =>
              ({| _channel_handlers := hs; _pubsub := None |},
               Raise (AttributeError "'NoneType' object has no attribute 'unsubscribe'"))
          end
      end
  end.

(** A caller of the bus; an exception goes to the caller, the bus stays as
    the call left it. *)
Inductive bus_call : Type :=
| Subscribe (channel : string) (handler : H)
| Unsubscribe (channel : string) (handler : option H).

Definition bus_step (b : t) (c : bus_call) : t :=
  match c with
  | Subscribe channel handler => (subscribe b channel handler).1
  | Unsubscribe channel handler => (unsubscribe b channel handler).1
  end.

Definition bus_run (b : t) (cs : list bus_call) : t := foldl bus_step b cs.

(** How many SUBSCRIBE of [channel] the transport saw since the last
    UNSUBSCRIBE of it. *)
Fixpoint open_subscribes (channel : string) (n : nat) (cs : list pubsub_call) : nat :=
  match cs with
  | [] => n
  | SUBSCRIBE c :: cs' =>
      open_subscribes channel (if decide (c = channel) then S n else n) cs'
  | UNSUBSCRIBE c :: cs' =>
      open_subscribes channel (if decide (c = channel) then O else n) cs'
  end.

(** *** The listener *)

(** [J] is a decoded payload, [json_loads] the decoder ([None]: it raised
    [JSONDecodeError]), and [call h data channel] what awaiting the handler
    gives. *)
Context {J : Type}.
Variable json_loads : string -> option J.
Variable call : H -> J -> string -> result unit.

Inductive event : Type :=
| Invoked (h : H) (msg_data : J) (channel : string)
| LoggedException (channel : string) (e : exn).

(** [for handler in handlers: await handler(msg_data, channel)] *)
Fixpoint invoke_all (handlers : list H) (msg_data : J) (channel : string)
  : list event * result unit :=
  match handlers with
  | [] => ([], Ok tt)
  | h :: hs =>
      match call h msg_data channel with
      | Ok _ =>
          let '(evs, r) := invoke_all hs msg_data channel in
          (Invoked h msg_data channel :: evs, r)
      | Raise e => ([Invoked h msg_data channel], Raise e)
      end
  end.

(** The body of the loop for one message: the inner [try]. *)
Definition on_message (b : t) (msg : message) : list event * result unit :=
  match _channel_handlers b !! m_channel msg with
  | None => ([], Ok tt)
  | Some handlers =>
      let '(evs, r) :=
        match json_loads (m_data msg) with
        | None => ([], Raise JSONDecodeError)
        | Some msg_data => invoke_all handlers msg_data (m_channel msg)
        end in
      match r with
      | Ok _ => (evs, Ok tt)
      | Raise e =>
          if is_Exception e
          then (evs ++ [LoggedException (m_channel msg) e], Ok tt)
          else (evs, Raise e)
      end
  end.

(** [_listen] over what [get_message] delivers, as far as the deliveries
    go. *)
Fixpoint _listen (b : t) (stream : list received) : list event * status :=
  match stream with
  | [] => ([], Listening)
  | Got None :: rest => _listen b rest
  | Got (Some msg) :: rest =>
      match on_message b msg with
      | (evs, Ok _) =>
          let '(evs', st) := _listen b rest in (evs ++ evs', st)
      | (evs, Raise CancelledError) => (evs, Finished)
      | (evs, Raise e) => (evs, Died e)
      end
  | GetRaised CancelledError :: _ => ([], Finished)
  | GetRaised e :: _ => ([], Died e)
  end.

End Bus.

Arguments t H : clear implicits.
Arguments bus_call H : clear implicits.
Arguments event H J : clear implicits.

End RedisMessageBus.

(** ** aiohttp and aiohttp_session, as far as the session store uses them

    Not part of the repository. *)

Module AioSession.

(** [c.lower()] on one ASCII character. *)
Definition lower (c : ascii) : ascii :=
  let n := N_of_ascii c in
  if ((65 <=? n) && (n <=? 90))%N then ascii_of_N (n + 32) else c.

Fixpoint lower_str (s : string) : string :=
  match s with
  | EmptyString => EmptyString
  | String c s' => String (lower c) (lower_str s')
  end.

(** [request.headers.get(name)]: header names compare without case, the
    first header of that name answers. *)
Fixpoint headers_get (headers : list (string * string)) (name : string)
  : option string :=
  match headers with
  | [] => None
  | (k, v) :: rest =>
      if String.eqb (lower_str k) (lower_str name) then Some v
      else headers_get rest name
  end.

Record Request : Type := {
  headers : list (string * string);
  cookies : gmap string string
}.

(** What a storage does to the cookies of the response. *)
Inductive cookie_action : Type :=
| DelCookie (name : string)
| SetCookie (name value : string).

Record Response : Type := { cookie_actions : list cookie_action }.

(** The dictionary [{"created": ..., "session": ...}] a storage builds. *)
Record session_data : Type := {
  sd_created : Z;
  sd_session : gmap string string
}.

Record Session : Type := {
  identity : option string;
  _mapping : gmap string string;
  new : bool;
  created : Z;
  max_age : option Z
}.

(** [Session(identity, data=data, new=new, max_age=max_age)] at the time
    [now] in seconds; [data] is [None] or a dictionary with both keys. *)
Definition make_session (now : Z) (identity : option string)
    (data : option session_data) (new : bool) (max_age : option Z) : Session :=
  let created := sd_created <$> data in
  let age :=
    match created with
    | Some c => if decide (c = 0) then now else now - c
    | None => now
    end in
  let session_data :=
    match max_age with
    | Some m => if decide (m < age) then None else sd_session <$> data
    | None => sd_session <$> data
    end in
  {| identity := identity;
     _mapping := default ∅ session_data;
     new := new;
     created := match created with
                | Some c => if new then now else c
                | None => now
                end;
     max_age := max_age |}.

(** [session.empty] *)
Definition empty (s : Session) : bool := bool_decide (_mapping s = ∅).

(** [AbstractStorage.load_cookie] *)
Definition load_cookie (cookie_name : string) (request : Request) : option string :=
  cookies request !! cookie_name.

(** [AbstractStorage.save_cookie]: no cookie data deletes the cookie. *)
Definition save_cookie (cookie_name : string) (response : Response)
    (cookie_data : option string) : Response :=
  match cookie_data with
  | Some v =>
      if Py.nonempty v
      then {| cookie_actions := cookie_actions response ++ [SetCookie cookie_name v] |}
      else {| cookie_actions := cookie_actions response ++ [DelCookie cookie_name] |}
  | None => {| cookie_actions := cookie_actions response ++ [DelCookie cookie_name] |}
  end.

(** [AbstractStorage._get_session_data]; the mapping it returns is the
    session's own. *)
Definition _get_session_data (s : Session) : option session_data :=
  if empty s then None
  else Some {| sd_created := created s; sd_session := _mapping s |}.

End AioSession.

(** ** redis.py: RedisSessionStore *)

Module RedisSessionStore.
Import AioSession.

Record t : Type := {
  cookie_name : string;
  idle_session_expiry_msec : option Z
}.

(** [__init__] *)
Definition init (idle_session_expiry_msec : option Z) : t :=
  {| cookie_name := "__Host-session_token";
     idle_session_expiry_msec := idle_session_expiry_msec |}.

Definition load_cookie (self : t) (request : Request) : option string :=
  let inherited := AioSession.load_cookie (cookie_name self) request in
  match headers_get (headers request) "Authorization" with
  | Some auth_header =>
      match Py.split auth_header with
      | [s0; s1] => if String.eqb s0 "Bearer" then Some s1 else inherited
      | _ => inherited
      end
  | None => inherited
  end.

(** [_storage_key] of a session identifier. *)
Definition _storage_key (session_id : string) : string :=
  "moonship:session:" +:+ session_id.

(** [_storage_key] of a session: its identity, as an f-string prints it. *)
Definition _storage_key_of (session : Session) : string :=
  _storage_key (default "None" (identity session)).

(** [now] is the time in milliseconds; the session library reads the same
    clock in seconds. *)
Definition load_session (self : t) (now : Z) (d : Redis.db) (request : Request)
  : Redis.db * result Session :=
  match load_cookie self request with
  | None => (d, Ok (make_session (now `div` 1000) None None true None))
  | Some session_id =>
      let storage_key := _storage_key session_id in
      match RedisSharedCache.map_get_entries now d storage_key with
      | Raise e => (d, Raise e)
      | Ok session_save_data =>
          if decide (size session_save_data = 0%nat) then
            (d, Ok (make_session (now `div` 1000) None None true None))
          else
            let '(d1, r) :=
              match idle_session_expiry_msec self with
              | Some ms => RedisSharedCache.expire now d storage_key ms
              | None => (d, Ok tt)
              end in
            (d1,
             _ <~ r ;;
             created_str <~ match session_save_data !! "created" with
                            | Some v => Ok v
                            | None => Raise (KeyError "created")
                            end ;;
             created <~ Py.int_of_str created_str ;;
             Ok (make_session (now `div` 1000) (Some session_id)
                   (Some {| sd_created := created;
                            sd_session := delete "created" session_save_data |})
                   false None))
      end
  end.

(** [save_session]; the session comes back as the call leaves it: the
    dictionary written to the store is the session's own mapping, so the
    [created] entry stays in it (as a number there, as its decimal string
    here). *)
Definition save_session (self : t) (now : Z) (d : Redis.db)
    (response : Response) (session : Session)
  : Redis.db * Response * Session * result unit :=
  let storage_key := _storage_key_of session in
  if empty session then
    let response' := save_cookie (cookie_name self) response None in
    let '(d', r) := RedisSharedCache.delete now d storage_key in
    (d', response', session, r)
  else
    let response' := save_cookie (cookie_name self) response (identity session) in
    match _get_session_data session with
    | None => (d, response', session, Raise (KeyError "session"))
    | Some session_data =>
        let session_save_data :=
          <["created" := Py.str_of_int (sd_created session_data)]>
            (sd_session session_data) in
        let session' :=
          {| identity := identity session; _mapping := session_save_data;
             new := new session; created := created session;
             max_age := max_age session |} in
        match RedisSharedCacheBulkOp.map_put
                (RedisSharedCacheBulkOp.delete
                   (RedisSharedCache.start_bulk true) storage_key)
                storage_key session_save_data with
        | Raise e => (d, response', session', Raise e)
        | Ok b =>
            let b' :=
              match idle_session_expiry_msec self with
              | Some ms => RedisSharedCacheBulkOp.expire b storage_key ms
              | None => b
              end in
            let '(d', r) := RedisSharedCacheBulkOp.execute now d b' in
            (d', response', session', r)
        end
    end.

End RedisSessionStore.

(** ** api.py: APIService *)

(** A scalar of a decoded JSON message. *)
Inductive scalar : Type :=
| SNone
| SBool (b : bool)
| SInt (z : Z)
| SStr (s : string).

(** Python's [==] on scalars: [True == 1] and [False == 0]. *)
Definition py_eq (a b : scalar) : bool :=
  match a, b with
  | SNone, SNone => true
  | SBool x, SBool y => bool_decide (x = y)
  | SBool x, SInt y | SInt y, SBool x => y =? (if x then 1 else 0)
  | SInt x, SInt y => x =? y
  | SStr x, SStr y => String.eqb x y
  | _, _ => false
  end.

(** What an f-string prints for a scalar. *)
Definition py_str (a : scalar) : string :=
  match a with
  | SNone => "None"
  | SBool true => "True"
  | SBool false => "False"
  | SInt z => Py.str_of_int z
  | SStr s => s
  end.

(** A value of a JSON response body. *)
Inductive pyval : Type :=
| PNone
| PBool (b : bool)
| PInt (z : Z)
| PStr (s : string)
| PList (l : list pyval)
| PDict (d : gmap string pyval).

Module APIService.

(** An [aiohttp.web] response, as far as the service looks at it. *)
Record Response : Type := {
  status : Z;
  content_type : string;
  reason : string;
  body : option pyval                  (* the JSON body, if there is one *)
}.

Section Service.

(** [MessageResult] is declared in [moonship.core.ipc], outside the source
    at hand: the values of its two members used here are parameters.  So
    is the reason phrase [aiohttp] gives a status. *)
Variable SUCCESS_value : scalar.
Variable MISSING_OR_INVALID_PARAMETER_value : scalar.
Variable http_phrase : Z -> string.

Definition json_response (data : pyval) (status : Z) : Response :=
  {| status := status; content_type := "application/json";
     reason := http_phrase status; body := Some data |}.

Definition _ok (json_rsp_body : option pyval) : Response :=
  match json_rsp_body with
  | Some j => json_response j 200
  | None =>
      {| status := 200; content_type := "application/octet-stream";
         reason := http_phrase 200; body := None |}
  end.

Definition _error_response (error : string) (status : Z) : Response :=
  json_response (PDict (<["error" := PStr error]> (<["status" := PInt status]> ∅))) status.

(** The defaults of [_error_response]. *)
Definition _internal_error : Response := _error_response "Internal server error" 500.

Definition _bad_request (error : string) : Response := _error_response error 400.
Definition _unauthorized (error : string) : Response := _error_response error 401.
Definition _not_found (error : string) : Response := _error_response error 404.
Definition _timeout : Response := _error_response "Operation timeout" 504.

(** [rsp.get(key)]: a missing key reads as [None]. *)
Definition dict_get (rsp : gmap string scalar) (key : string) : scalar :=
  default SNone (rsp !! key).

Definition _handle_engine_command_rsp (rsp : gmap string scalar) : Response :=
  let result := dict_get rsp "result" in
  match result with
  | SNone => _internal_error
  | _ =>
      if py_eq result SUCCESS_value then _ok None
      else if py_eq result MISSING_OR_INVALID_PARAMETER_value
      then _bad_request ("Missing or invalid: " +:+ py_str (dict_get rsp "parameter"))
      else _internal_error
  end.

(** The middleware [handle_error] around what the handler did. *)
Definition handle_error (outcome : result Response) : result Response :=
  match outcome with
  | Ok response =>
      if (status response <? 400) || String.eqb (content_type response) "application/json"
      then Ok response
      else Ok (_error_response (reason response) (status response))
  | Raise (HTTPException reason status) => Ok (_error_response reason status)
  | Raise TimeoutError => Ok _timeout
  | Raise e => if is_Exception e then Ok _internal_error else Raise e
  end.

(** [publish_and_receive] is inherited from [MessageBus], also outside the
    source at hand: what it returns or raises for a request is a
    parameter. *)
Variable publish_and_receive :
  gmap string scalar -> string -> string -> result (gmap string scalar).

Definition engine_command (command strategy engine : string) : gmap string scalar :=
  <["command" := SStr command]>
    (<["strategy" := SStr strategy]> (<["engine" := SStr engine]> ∅)).

Definition start_strategy (strategy engine : string) : result Response :=
  rsp <~ publish_and_receive (engine_command "start" strategy engine)
           "moonship.message.request" "moonship.message.response" ;;
  Ok (_handle_engine_command_rsp rsp).

Definition stop_strategy (strategy engine : string) : result Response :=
  rsp <~ publish_and_receive (engine_command "stop" strategy engine)
           "moonship.message.request" "moonship.message.response" ;;
  Ok (_handle_engine_command_rsp rsp).

(** *** Strategies *)

Definition _get_strategy (now : Z) (d : Redis.db) (name engine : string)
  : result (option (gmap string pyval)) :=
  let key := "moonship." +:+ engine +:+ ".strategies." +:+ name in
  stored <~ RedisSharedCache.map_get_entries now d key ;;
  if decide (size stored = 0%nat) then Ok None
  else
    let strategy : gmap string pyval := PStr <$> stored in
    let strategy := <["name" := PStr name]> strategy in
    let strategy := <["engine" := PStr engine]> strategy in
    stored_config <~ RedisSharedCache.map_get_entries now d (key +:+ ".config") ;;
    let config : gmap string pyval := PStr <$> stored_config in
    let config :=
      match stored_config !! "markets" with
      | Some markets => <["markets" := PList (PStr <$> Py.split_sep "," markets)]> config
      | None => config
      end in
    Ok (Some (<["config" := PDict config]> strategy)).

Definition get_strategy (now : Z) (d : Redis.db) (strategy engine : string)
  : result Response :=
  s <~ _get_strategy now d strategy engine ;;
  match s with
  | None => Ok (_not_found "No such strategy")
  | Some s => Ok (_ok (Some (PDict s)))
  end.

End Service.

End APIService.

(** ** redis.py: RedisMessageBus.close *)

Module BusLifecycle.
Import RedisMessageBus.

(** [PubSub.close] drops the subscriptions of the connection it gives
    back. *)
Definition pubsub_close (ps : PubSub) : PubSub :=
  {| channels := ∅; calls := calls ps |}.

Section Close.
Context {H : Type} `{EqDecision H}.

(** [for channel in keys: await self.unsubscribe(channel)]; the first
    exception ends the loop. *)
Fixpoint unsubscribe_each (b : t H) (keys : list string) : t H * result unit :=
  match keys with
  | [] => (b, Ok tt)
  | channel :: rest =>
      match unsubscribe b channel None with
      | (b', Ok _) => unsubscribe_each b' rest
      | (b', Raise e) => (b', Raise e)
      end
  end.

(** [close].  [keys] is [list(self._channel_handlers.keys())]: the channels
    of the registration map, each once, in the order the dictionary
    iterates them.  Cancelling the listener task is what [_listen] receives
    as [GetRaised CancelledError]; the task itself is not part of the
    state here. *)
Definition close (g : globals) (b : t H) (keys : list string)
  : globals * t H * result unit :=
  match unsubscribe_each b keys with
  | (b1, Raise e) => (g, b1, Raise e)
  | (b1, Ok _) =>
      match _pubsub b1 with
      | None =>
          (g, b1, Raise (AttributeError "'NoneType' object has no attribute 'close'"))
      | Some ps =>
          let b2 := {| _channel_handlers := _channel_handlers b1;
                       _pubsub := Some (pubsub_close ps) |} in
          let '(g', r) := close_redis g in
          (g', b2, r)
      end
  end.

End Close.

End BusLifecycle.

(** ** aiohttp_session: what the gateway does to a session

    Not part of the repository. *)

Module AioSessionOps.
Import AioSession.

(** [session.set_new_identity(identity)] *)
Definition set_new_identity (s : Session) (new_identity : string) : result Session :=
  if new s then
    Ok {| identity := Some new_identity; _mapping := _mapping s; new := new s;
          created := created s; max_age := max_age s |}
  else Raise (OtherException "RuntimeError").

(** [session[key] = value] at the time [now] in seconds. *)
Definition setitem (now : Z) (s : Session) (key value : string) : Session :=
  {| identity := identity s; _mapping := <[key := value]> (_mapping s);
     new := new s; created := now; max_age := max_age s |}.

(** [session.invalidate()] *)
Definition invalidate (s : Session) : Session :=
  {| identity := identity s; _mapping := ∅; new := new s;
     created := created s; max_age := max_age s |}.

End AioSessionOps.

(** ** api.py: the routes and the start-up checks of APIService *)

Module Gateway.
Import APIService.

(** The part of [self] the routes read. *)
Record t : Type := {
  user : string;
  password : string                     (* the configured hash *)
}.




Section Routes.

Variable http_phrase : Z -> string.

(** [bcrypt.checkpw(password, hashed)] and [uuid.uuid4().hex] come from
    outside: parameters. *)
Variable checkpw : string -> string -> bool.
Variable uuid4_hex : string.

(** [login].  [req_body] is what [await req.json()] gave, a JSON object
    with scalar fields, or the exception it raised; [session] is the
    session of the request and [now] the time in seconds. *)
Definition login (self : t) (now : Z) (req_body : result (gmap string scalar))
    (session : AioSession.Session) : result (Response * AioSession.Session) :=
  match req_body with
  | Raise JSONDecodeError => Ok (_bad_request http_phrase "Missing or bad request body", session)
  | Raise e => Raise e
  | Ok req_body =>
      match dict_get req_body "user" with
      | SStr req_user =>
          match dict_get req_body "password" with
          | SStr req_password =>
              if String.eqb req_user (user self) && checkpw req_password (password self)
              then
                session' <~ (if AioSession.new session then
                               s1 <~ AioSessionOps.set_new_identity session uuid4_hex ;;
                               Ok (AioSessionOps.setitem now s1 "user" (user self))
                             else Ok session) ;;
                Ok (_ok http_phrase
                      (Some (PDict {["session_token" :=
                                       match AioSession.identity session' with
                                       | Some i => PStr i
                                       | None => PNone
                                       end]})),
                    session')
              else
                Ok (_unauthorized http_phrase "Invalid user or password",
                    AioSessionOps.invalidate session)
          | _ => Ok (_bad_request http_phrase "Missing or bad password field", session)
          end
      | _ => Ok (_bad_request http_phrase "Missing or bad user field", session)
      end
  end.

(** [logout] *)
Definition logout (session : AioSession.Session) : Response * AioSession.Session :=
  (_ok http_phrase None, AioSessionOps.invalidate session).

(** The middleware [verify_session]: [handler] is what the route would
    answer. *)
Definition verify_session (path : string) (session : AioSession.Session)
    (handler : result Response) : result Response :=
  if negb (String.eqb path "/login") && AioSession.new session
  then Ok (_unauthorized http_phrase "Access denied")
  else handler.

End Routes.

End Gateway.

(** ** Predicates and data of the statements *)

(** Every character of [s] satisfies [p]. *)
Fixpoint all_chars (p : ascii -> bool) (s : string) : bool :=
  match s with
  | EmptyString => true
  | String c s' => p c && all_chars p s'
  end.


(** What holds of a bus between calls. *)
Definition bus_inv {H : Type} (b : RedisMessageBus.t H) : Prop :=
  exists ps,
    RedisMessageBus._pubsub b = Some ps /\
    RedisMessageBus.channels ps = dom (RedisMessageBus._channel_handlers b) /\
    (forall c hs, RedisMessageBus._channel_handlers b !! c = Some hs -> hs ≠ [] /\ NoDup hs) /\
    (forall c, RedisMessageBus.open_subscribes c 0 (RedisMessageBus.calls ps)
               = if decide (c ∈ dom (RedisMessageBus._channel_handlers b)) then 1%nat else 0%nat).

(** The session a storage hands out when there is nothing to load. *)
Definition fresh_session (now : Z) : AioSession.Session :=
  {| AioSession.identity := None; AioSession._mapping := ∅;
     AioSession.new := true; AioSession.created := now `div` 1000;
     AioSession.max_age := None |}.

(** The deadline a save or a refresh at [now] leaves on the key. *)
Definition idle_deadline (self : RedisSessionStore.t) (now : Z) : option Z :=
  (fun ms => now + ms) <$> RedisSessionStore.idle_session_expiry_msec self.

(** A configuration with a plain URL. *)
Definition local_config : Config :=
  {| settings := {["moonship.redis.url" := CStr "redis://localhost:6379"]};
     environ := ∅ |}.

(** Three handlers on channel [A]; the second raises, the others return. *)
Definition three_handler_bus : RedisMessageBus.t nat :=
  RedisMessageBus.bus_run RedisMessageBus.started
    [RedisMessageBus.Subscribe "A" 1%nat; RedisMessageBus.Subscribe "A" 2%nat;
     RedisMessageBus.Subscribe "A" 3%nat].

Definition second_raises (h : nat) (msg_data : string) (channel : string) : result unit :=
  if decide (h = 2%nat) then Raise (OtherException "RuntimeError") else Ok tt.

Definition message_on_A : RedisMessageBus.message :=
  {| RedisMessageBus.m_channel := "A"; RedisMessageBus.m_data := "{}" |}.

(** A logged-in session, the request that carries its identifier in the
    cookie, and a store with one minute of idle expiry. *)
Definition admin_session : AioSession.Session :=
  {| AioSession.identity := Some "0123abcd";
     AioSession._mapping := {["user" := "admin"]};
     AioSession.new := false;
     AioSession.created := 1700000000;
     AioSession.max_age := None |}.

Definition cookie_request : AioSession.Request :=
  {| AioSession.headers := [];
     AioSession.cookies := {["__Host-session_token" := "0123abcd"]} |}.

Definition no_response : AioSession.Response := {| AioSession.cookie_actions := [] |}.

(** An engine that answers with text codes, and a bus on which a request
    for strategy [late] times out. *)
Definition text_codes_bus (msg : gmap string scalar) (request_channel response_channel : string)
  : result (gmap string scalar) :=
  match msg !! "strategy" with
  | Some (SStr "late") => Raise TimeoutError
  | Some (SStr "s1") => Ok {["result" := SStr "success"]}
  | Some (SStr "") =>
      Ok (<["result" := SStr "missing_or_invalid_parameter"]> {["parameter" := SStr "strategy"]})
  | _ => Ok {["result" := SStr "failed"]}
  end.



(** [sep.join(l)] *)
Fixpoint join (sep : string) (l : list string) : string :=
  match l with
  | [] => EmptyString
  | [x] => x
  | x :: l' => x +:+ sep +:+ join sep l'
  end.

(** [keys] lists the channels of the registration map, each once. *)
Definition enumerates {H : Type} (keys : list string) (b : RedisMessageBus.t H) : Prop :=
  NoDup keys /\ forall k, k ∈ keys <-> k ∈ dom (RedisMessageBus._channel_handlers b).



(** [load_session] for the same request at each of the [times], in turn. *)
Fixpoint load_at (self : RedisSessionStore.t) (request : AioSession.Request)
    (d : Redis.db) (times : list Z) : Redis.db * list (result AioSession.Session) :=
  match times with
  | [] => (d, [])
  | now :: later =>
      let '(d1, r) := RedisSessionStore.load_session self now d request in
      let '(d2, rs) := load_at self request d1 later in
      (d2, r :: rs)
  end.

(** Each of the [times] comes less than [ms] after the one before it,
    the first less than [ms] after [last]. *)
Fixpoint within_idle (ms last : Z) (times : list Z) : Prop :=
  match times with
  | [] => True
  | now :: later => now < last + ms /\ within_idle ms now later
  end.

(* ===================================================================== *)
(** * Part II: properties                                                 *)
(* ===================================================================== *)

(** ** The store: what a command sees after a write *)

Section RedisFacts.
Import Redis.

Lemma find_insert (now : Z) (d : db) (k : string) (e : entry) :
  live now e = true -> find now (<[k := e]> d) k = Some e.
Proof. intros Hl. unfold find. rewrite lookup_insert_eq. by rewrite Hl. Qed.

Lemma find_insert_ne (now : Z) (d : db) (k k' : string) (e : entry) :
  k ≠ k' -> find now (<[k := e]> d) k' = find now d k'.
Proof. intros Hne. unfold find. by rewrite lookup_insert_ne. Qed.

Lemma find_delete (now : Z) (d : db) (k : string) :
  find now (delete k d) k = None.
Proof. unfold find. by rewrite lookup_delete_eq. Qed.

Lemma find_delete_ne (now : Z) (d : db) (k k' : string) :
  k ≠ k' -> find now (delete k d) k' = find now d k'.
Proof. intros Hne. unfold find. by rewrite lookup_delete_ne. Qed.

Lemma find_live (now : Z) (d : db) (k : string) (e : entry) :
  find now d k = Some e -> live now e = true.
Proof.
  unfold find. destruct (d !! k) as [e'|]; [|done].
  destruct (live now e') eqn:Hl; [|done]. by intros [= <-].
Qed.

Lemma find_put (now : Z) (d : db) (k : string) (v : rvalue) (t : option Z) :
  live now (Entry v t) = true ->
  find now (put d k v t) k = if is_empty v then None else Some (Entry v t).
Proof.
  intros Hl. unfold put. destruct (is_empty v).
  - apply find_delete.
  - by apply find_insert.
Qed.

Lemma find_put_ne (now : Z) (d : db) (k k' : string) (v : rvalue) (t : option Z) :
  k ≠ k' -> find now (put d k v t) k' = find now d k'.
Proof.
  intros Hne. unfold put. destruct (is_empty v).
  - by apply find_delete_ne.
  - by apply find_insert_ne.
Qed.

(** LRANGE 0 -1 is the whole list. *)
Lemma lrange_list_all (l : list string) : lrange_list 0 (-1) l = l.
Proof.
  unfold lrange_list.
  destruct (decide (0 < 0)) as [?|_]; [lia|].
  destruct (decide (-1 < 0)) as [_|?]; [|lia].
  destruct l as [|x l].
  - by destruct (decide (0 <= Z.of_nat (length (@nil string)) + -1)).
  - destruct (decide (0 <= Z.of_nat (length (x :: l)) + -1)) as [_|Hn].
    + replace (Z.to_nat (Z.of_nat (length (x :: l)) + -1 - 0 + 1))
        with (length (x :: l)) by lia.
      simpl drop. apply firstn_all.
    + simpl length in Hn. lia.
Qed.

(** LREM with count 0 leaves exactly the elements that differ. *)
Lemma lrem_list_zero (e : string) (l : list string) :
  lrem_list 0 e l = List.filter (fun x => negb (bool_decide (x = e))) l.
Proof. unfold lrem_list. by destruct (decide (0 = 0)). Qed.

Lemma lrem_list_zero_gone (e : string) (l : list string) :
  ~ In e (lrem_list 0 e l).
Proof.
  rewrite lrem_list_zero, filter_In. intros [_ H].
  by rewrite bool_decide_eq_true_2 in H.
Qed.

Lemma lrem_list_zero_keeps (e x : string) (l : list string) :
  x ≠ e -> count_occ string_dec (lrem_list 0 e l) x = count_occ string_dec l x.
Proof.
  intros Hne. rewrite lrem_list_zero.
  induction l as [|y l IH]; [done|]. simpl.
  destruct (bool_decide (y = e)) eqn:Hy; simpl.
  - apply bool_decide_eq_true_1 in Hy. subst y.
    destruct (string_dec e x) as [->|_]; [done|]. apply IH.
  - destruct (string_dec y x); by rewrite IH.
Qed.

(** Running a queue of one command is running the command. *)
Lemma execute_one (now : Z) (d : db) (c : command) :
  execute now d [c] = exec now d c.
Proof.
  unfold execute. simpl. destruct (exec now d c) as [d1 [[]|e]]; reflexivity.
Qed.

End RedisFacts.

(** ** Shared cache: removing from a list *)

Section ListRemove.
Import Redis.

Lemma list_get_elements_inv (now : Z) (d : db) (k : string) (l : list string) :
  RedisSharedCache.list_get_elements now d k = Ok l ->
  (find now d k = None /\ l = []) \/
  (exists t, find now d k = Some (Entry (RList l) t)).
Proof.
  unfold RedisSharedCache.list_get_elements, lrange.
  destruct (find now d k) as [[[l0|s|h] t]|] eqn:Hf; try discriminate.
  - rewrite lrange_list_all. intros [= <-]. right. by exists t.
  - intros [= <-]. by left.
Qed.

Lemma list_get_elements_put (now : Z) (d : db) (k : string) (l : list string)
    (t : option Z) :
  live now (Entry (RList l) t) = true ->
  RedisSharedCache.list_get_elements now (put d k (RList l) t) k = Ok l.
Proof.
  intros Hl. unfold RedisSharedCache.list_get_elements, lrange.
  rewrite find_put by done. simpl.
  destruct (bool_decide (l = [])) eqn:He.
  - apply bool_decide_eq_true_1 in He. by subst l.
  - by rewrite lrange_list_all.
Qed.

(** C10. [list_remove], called on the cache or queued in a bulk operation
    and executed, removes every occurrence of the element: the list read
    afterwards is the list read before without the elements equal to it, in
    the same order, and the element is no longer in it. *)
Theorem list_remove_removes_every_occurrence
    (now : Z) (d : db) (k e : string) (l : list string) (transaction : bool) :
  RedisSharedCache.list_get_elements now d k = Ok l ->
  let direct := RedisSharedCache.list_remove now d k e in
  let queued :=
    RedisSharedCacheBulkOp.execute now d
      (RedisSharedCacheBulkOp.list_remove
         (RedisSharedCache.start_bulk transaction) k e) in
  let l' := List.filter (fun x => negb (bool_decide (x = e))) l in
  direct.2 = Ok tt /\
  queued = direct /\
  RedisSharedCache.list_get_elements now direct.1 k = Ok l' /\
  ~ In e l' /\
  (forall x, x ≠ e -> count_occ string_dec l' x = count_occ string_dec l x).
Proof.
  intros Hget direct queued l'.
  assert (Hq : queued = direct).
  { subst queued direct. unfold RedisSharedCacheBulkOp.execute,
      RedisSharedCacheBulkOp.list_remove, RedisSharedCacheBulkOp.queue,
      RedisSharedCache.start_bulk, RedisSharedCache.list_remove.
    simpl. by rewrite execute_one. }
  assert (Hgone : ~ In e l').
  { unfold l'. rewrite <- lrem_list_zero. apply lrem_list_zero_gone. }
  assert (Hkeep : forall x, x ≠ e -> count_occ string_dec l' x = count_occ string_dec l x).
  { intros x Hx. unfold l'. rewrite <- lrem_list_zero. by apply lrem_list_zero_keeps. }
  cut (direct.2 = Ok tt /\ RedisSharedCache.list_get_elements now direct.1 k = Ok l').
  { intros [H1 H2]. auto. }
  subst direct l'. unfold RedisSharedCache.list_remove, lrem, forget.
  destruct (list_get_elements_inv _ _ _ _ Hget) as [[Hf ->]|[t Hf]]; rewrite Hf; simpl.
  - split; [done|].
    unfold RedisSharedCache.list_get_elements, lrange. by rewrite Hf.
  - split; [done|].
    rewrite lrem_list_zero. apply list_get_elements_put.
    by apply find_live in Hf.
Qed.

Lemma list_remove_removes_every_occurrence_witness :
  let d : db := <["q" := Entry (RList ["a"; "b"; "a"; "c"; "a"]) None]> ∅ in
  RedisSharedCache.list_get_elements 0 d "q" = Ok ["a"; "b"; "a"; "c"; "a"] /\
  RedisSharedCache.list_get_elements 0
    (RedisSharedCache.list_remove 0 d "q" "a").1 "q" = Ok ["b"; "c"].
Proof.
  split; [reflexivity|].
  apply (list_remove_removes_every_occurrence 0
           (<["q" := Entry (RList ["a"; "b"; "a"; "c"; "a"]) None]> ∅)
           "q" "a" ["a"; "b"; "a"; "c"; "a"] true).
  reflexivity.
Defined.

End ListRemove.

(** ** Shared cache: writing a map *)

Section MapPut.
Import Redis.

Lemma hset_check_nonempty (entries : gmap string string) :
  entries ≠ ∅ -> hset_check entries = Ok tt.
Proof. intros Hne. unfold hset_check. by destruct (decide (entries = ∅)). Qed.

Lemma map_get_entries_inv (now : Z) (d : db) (k : string) (h : gmap string string) :
  RedisSharedCache.map_get_entries now d k = Ok h ->
  (find now d k = None /\ h = ∅) \/
  (exists t, find now d k = Some (Entry (RHash h) t)).
Proof.
  unfold RedisSharedCache.map_get_entries, hgetall.
  destruct (find now d k) as [[[l0|s|h0] t]|] eqn:Hf; try discriminate.
  - intros [= <-]. right. by exists t.
  - intros [= <-]. by left.
Qed.

Lemma map_get_entries_insert (now : Z) (d : db) (k : string)
    (h : gmap string string) (t : option Z) :
  live now (Entry (RHash h) t) = true ->
  RedisSharedCache.map_get_entries now (<[k := Entry (RHash h) t]> d) k = Ok h.
Proof.
  intros Hl. unfold RedisSharedCache.map_get_entries, hgetall.
  by rewrite find_insert.
Qed.

(** With [append=False] the call is one transaction of a DEL and an HSET. *)
Lemma map_put_replace_is_one_commit (now : Z) (d : db) (k : string)
    (entries : gmap string string) :
  entries ≠ ∅ ->
  RedisSharedCache.map_put now d k entries false =
  RedisSharedCacheBulkOp.execute now d
    {| RedisSharedCacheBulkOp.pipeline := [DEL k; HSET k entries];
       RedisSharedCacheBulkOp.transaction := true |}.
Proof.
  intros Hne. unfold RedisSharedCache.map_put, RedisSharedCacheBulkOp.map_put.
  simpl. by rewrite hset_check_nonempty.
Qed.

Lemma execute_del_hset (now : Z) (d : db) (k : string) (entries : gmap string string) :
  execute now d [DEL k; HSET k entries] =
  (<[k := Entry (RHash entries) None]> (delete k d), Ok tt).
Proof.
  unfold execute. simpl. unfold del, hset.
  destruct (find now d k); simpl; by rewrite find_delete.
Qed.

(** C4, as amended.  For every key and every entry map that is not empty:
    [map_put] with [append=False] is one commit of a delete and a put, and
    a read of the key right after it returns exactly the entries, whatever
    was under the key; with [append=True] on a key that holds a map (or
    nothing) the read returns the entries over the old map, so every old
    field that is not among the entries is still there with its value. *)
Theorem map_put_replaces_or_merges
    (now : Z) (d : db) (k : string) (entries : gmap string string) :
  entries ≠ ∅ ->
  (let r := RedisSharedCache.map_put now d k entries false in
   r = Redis.execute now d [DEL k; HSET k entries] /\
   r.2 = Ok tt /\
   RedisSharedCache.map_get_entries now r.1 k = Ok entries) /\
  (forall old : gmap string string,
     RedisSharedCache.map_get_entries now d k = Ok old ->
     let r := RedisSharedCache.map_put now d k entries true in
     r.2 = Ok tt /\
     RedisSharedCache.map_get_entries now r.1 k = Ok (entries ∪ old) /\
     (forall f, entries !! f = None -> (entries ∪ old) !! f = old !! f)).
Proof.
  intros Hne. split.
  - cbv zeta. rewrite map_put_replace_is_one_commit by done.
    unfold RedisSharedCacheBulkOp.execute, RedisSharedCacheBulkOp.pipeline.
    rewrite execute_del_hset. cbn [fst snd]. repeat split.
    by apply map_get_entries_insert.
  - intros old Hold. cbv zeta.
    unfold RedisSharedCache.map_put. simpl.
    rewrite hset_check_nonempty by done. unfold hset, forget.
    assert (Hkeep : forall f, entries !! f = None -> (entries ∪ old) !! f = old !! f).
    { intros f Hf. by apply lookup_union_r. }
    destruct (map_get_entries_inv _ _ _ _ Hold) as [[Hf ->]|[t Hf]]; rewrite Hf; simpl.
    + repeat split; [|done]. rewrite (right_id_L ∅ (∪)).
      by apply map_get_entries_insert.
    + repeat split; [|done]. apply map_get_entries_insert.
      by apply find_live in Hf.
Qed.

Lemma map_put_replaces_or_merges_witness :
  let d : db := <["k" := Entry (RHash {["a" := "1"]}) None]> ∅ in
  RedisSharedCache.map_get_entries 0
    (RedisSharedCache.map_put 0 d "k" {["b" := "2"]} false).1 "k"
  = Ok {["b" := "2"]} /\
  RedisSharedCache.map_get_entries 0
    (RedisSharedCache.map_put 0 d "k" {["b" := "2"]} true).1 "k"
  = Ok ({["b" := "2"]} ∪ {["a" := "1"]}).
Proof.
  pose proof (map_put_replaces_or_merges 0
                (<["k" := Entry (RHash {["a" := "1"]}) None]> ∅) "k"
                {["b" := "2"]}) as H.
  assert (Hne : ({["b" := "2"]} : gmap string string) ≠ ∅).
  { apply insert_non_empty. }
  destruct (H Hne) as [[_ [_ H1]] H2].
  split; [exact H1|].
  destruct (H2 {["a" := "1"]}) as [_ [H3 _]]; [reflexivity|exact H3].
Defined.

(** C4 as stated fails for an empty entry map: the client refuses an HSET
    with nothing to set before anything is sent, the delete queued before it
    is never executed, and the old fields are still read. *)
Lemma map_put_empty_entries_keeps_old_fields :
  let d : db := <["k" := Entry (RHash {["a" := "1"]}) None]> ∅ in
  RedisSharedCache.map_put 0 d "k" ∅ false
  = (d, Raise (DataError "'hset' with no key value pairs")) /\
  RedisSharedCache.map_get_entries 0
    (RedisSharedCache.map_put 0 d "k" ∅ false).1 "k" = Ok {["a" := "1"]} /\
  RedisSharedCache.map_get_entries 0
    (RedisSharedCache.map_put 0 d "k" ∅ false).1 "k" ≠ Ok ∅.
Proof.
  cbv zeta. repeat split. intros H. vm_compute in H. discriminate H.
Qed.

End MapPut.

(** ** The connection: acquire and release *)

Section Connection.

(** A release closes the client exactly when the count it leaves is zero
    (and there is a client), and then once. *)
Lemma close_redis_closes_at_zero (g : globals) (c : client) :
  redis g = Some c ->
  closed (close_redis g).1 =
  if decide (redis_ref_count g - 1 = 0) then closed g ++ [c_id c] else closed g.
Proof.
  intros Hc. unfold close_redis. rewrite Hc.
  by destruct (decide (redis_ref_count g - 1 = 0)).
Qed.

(** No call clears the global: a release leaves it as it is. *)
Lemma close_redis_keeps_redis (g : globals) :
  redis (close_redis g).1 = redis g.
Proof.
  unfold close_redis.
  destruct (decide (redis_ref_count g - 1 = 0)); [destruct (redis g)|]; reflexivity.
Qed.

Lemma conn_step_keeps_redis (g : globals) (c : conn_call) (h : client) :
  redis g = Some h -> redis (conn_step g c) = Some h /\ made (conn_step g c) = made g.
Proof.
  intros Hh. destruct c as [config|]; simpl.
  - unfold init_redis. by rewrite Hh.
  - rewrite close_redis_keeps_redis. split; [done|].
    unfold close_redis. rewrite Hh.
    by destruct (decide (redis_ref_count g - 1 = 0)).
Qed.

(** Once a client is made, every later acquire returns that same client,
    whatever releases came in between: no second connection is ever made. *)
Lemma conn_run_keeps_redis (cs : list conn_call) (g : globals) (h : client) :
  redis g = Some h ->
  redis (conn_run g cs) = Some h /\ made (conn_run g cs) = made g.
Proof.
  revert g. induction cs as [|c cs IH]; intros g Hh; [done|].
  unfold conn_run in *. simpl.
  destruct (conn_step_keeps_redis g c h Hh) as [H1 H2].
  destruct (IH _ H1) as [H3 H4]. split; [done|congruence].
Qed.

(** C1, on the code.  After one acquire and one release the count is back
    to zero and the client was closed once, yet the global still holds it;
    the next acquire makes no connection and returns the closed client. *)
Theorem close_redis_leaves_closed_handle :
  let g1 := conn_run initial_globals [Acquire local_config; Release] in
  let r := init_redis local_config g1 in
  redis_ref_count g1 = 0 /\
  closed g1 = [0%nat] /\
  (exists c, redis g1 = Some c /\ c_id c = 0%nat /\ r.2 = Ok c) /\
  made g1 = 1%nat /\ made r.1 = 1%nat /\
  redis_ref_count r.1 = 1 /\ closed r.1 = [0%nat].
Proof.
  cbv zeta. repeat split.
  eexists. repeat split.
Qed.

End Connection.

(** ** The message bus: registrations and transport subscriptions *)

Section BusFacts.
Import RedisMessageBus.
Context {H : Type} `{EqDecision H}.

Lemma open_subscribes_snoc (channel : string) (cs : list pubsub_call)
    (c : pubsub_call) (n : nat) :
  open_subscribes channel n (cs ++ [c]) =
  match c with
  | SUBSCRIBE c' =>
      if decide (c' = channel) then S (open_subscribes channel n cs)
      else open_subscribes channel n cs
  | UNSUBSCRIBE c' =>
      if decide (c' = channel) then O else open_subscribes channel n cs
  end.
Proof.
  revert n. induction cs as [|x cs IH]; intros n.
  - destruct c; simpl; by case_decide.
  - destruct x; simpl; apply IH.
Qed.

Lemma remove_first_subseteq (x : H) (l : list H) : remove_first x l ⊆ l.
Proof.
  induction l as [|y l IH]; [done|]. simpl. case_decide; set_solver.
Qed.

Lemma remove_first_NoDup (x : H) (l : list H) : NoDup l -> NoDup (remove_first x l).
Proof.
  induction 1 as [|y l Hy Hl IH]; simpl; [constructor|].
  case_decide; [done|]. constructor; [|done].
  intros Hin. apply Hy. by apply (remove_first_subseteq x l).
Qed.

Lemma bus_inv_intro (b : t H) (ps : PubSub) :
  _pubsub b = Some ps ->
  channels ps = dom (_channel_handlers b) ->
  (forall c hs, _channel_handlers b !! c = Some hs -> hs ≠ [] /\ NoDup hs) ->
  (forall c, open_subscribes c 0 (calls ps)
             = if decide (c ∈ dom (_channel_handlers b)) then 1%nat else 0%nat) ->
  bus_inv b.
Proof. intros. exists ps. auto. Qed.

Lemma bus_inv_started : bus_inv (@started H).
Proof.
  by apply (bus_inv_intro _ new_pubsub).
Qed.

Lemma bus_inv_subscribe (b : t H) (channel : string) (handler : H) :
  bus_inv b -> bus_inv (subscribe b channel handler).1.
Proof.
  intros (ps & Hps & Hch & Hhs & Hopen). unfold subscribe.
  destruct (_channel_handlers b !! channel) as [handlers|] eqn:Hc.
  - destruct (decide (handler ∈ handlers)) as [Hin|Hnin]; simpl.
    { by apply (bus_inv_intro _ ps). }
    assert (Hdom : dom (<[channel := handlers ++ [handler]]> (_channel_handlers b))
                   = dom (_channel_handlers b)).
    { rewrite dom_insert_L. apply elem_of_dom_2 in Hc. set_solver. }
    apply (bus_inv_intro _ ps); simpl; rewrite ?Hdom; try done.
    intros c hs Hl. destruct (decide (c = channel)) as [->|Hne].
    + rewrite lookup_insert_eq in Hl. injection Hl as <-.
      destruct (Hhs _ _ Hc) as [_ Hnd]. split; [by destruct handlers|].
      apply NoDup_app. repeat split; [done| |apply NoDup_singleton].
      intros x Hx Hx'. apply list_elem_of_singleton in Hx'. by subst x.
    + rewrite lookup_insert_ne in Hl by done. by apply (Hhs c).
  - rewrite Hps. simpl. destruct (decide (handler ∈ [])) as [Hin|_].
    { by apply not_elem_of_nil in Hin. }
    simpl. rewrite insert_insert_eq.
    apply (bus_inv_intro _ (pubsub_subscribe ps channel)); simpl.
    + done.
    + rewrite dom_insert_L. by rewrite Hch.
    + intros c hs Hl. destruct (decide (c = channel)) as [->|Hne].
      * rewrite lookup_insert_eq in Hl. injection Hl as <-.
        split; [done|apply NoDup_singleton].
      * rewrite lookup_insert_ne in Hl by done. by apply (Hhs c).
    + intros c. rewrite open_subscribes_snoc, Hopen, dom_insert_L.
      apply not_elem_of_dom_2 in Hc.
      destruct (decide (channel = c)) as [<-|Hne].
      * rewrite decide_False by done. rewrite decide_True by set_solver. done.
      * destruct (decide (c ∈ dom (_channel_handlers b))).
        -- rewrite decide_True by set_solver. done.
        -- rewrite decide_False by set_solver. done.
Qed.

Lemma bus_inv_unsubscribe (b : t H) (channel : string) (handler : option H) :
  bus_inv b -> bus_inv (unsubscribe b channel handler).1.
Proof.
  intros (ps & Hps & Hch & Hhs & Hopen).
  (* the two ways the map changes *)
  assert (Hdel : bus_inv
            {| _channel_handlers := delete channel (_channel_handlers b);
               _pubsub := Some (pubsub_unsubscribe ps channel) |}).
  { apply (bus_inv_intro _ (pubsub_unsubscribe ps channel)); simpl.
    - done.
    - rewrite dom_delete_L. by rewrite Hch.
    - intros c hs Hl. apply lookup_delete_Some in Hl as [_ Hl]. by apply (Hhs c).
    - intros c. rewrite open_subscribes_snoc, Hopen, dom_delete_L.
      destruct (decide (channel = c)) as [<-|Hne].
      + rewrite decide_False by set_solver. done.
      + destruct (decide (c ∈ dom (_channel_handlers b))).
        * rewrite decide_True by set_solver. done.
        * rewrite decide_False by set_solver. done. }
  unfold unsubscribe. destruct handler as [h|].
  - destruct (_channel_handlers b !! channel) as [handlers|] eqn:Hc.
    + destruct (decide (h ∈ handlers)) as [Hin|Hnin]; simpl.
      2:{ by apply (bus_inv_intro _ ps). }
      destruct (decide (length (remove_first h handlers) = 0%nat)) as [Hz|Hnz].
      * rewrite lookup_delete_eq, Hps. exact Hdel.
      * rewrite lookup_insert_eq. simpl.
        assert (Hdom : dom (<[channel := remove_first h handlers]> (_channel_handlers b))
                       = dom (_channel_handlers b)).
        { rewrite dom_insert_L. apply elem_of_dom_2 in Hc. set_solver. }
        apply (bus_inv_intro _ ps); simpl; rewrite ?Hdom; try done.
        intros c hs Hl. destruct (decide (c = channel)) as [->|Hne].
        -- rewrite lookup_insert_eq in Hl. injection Hl as <-.
           destruct (Hhs _ _ Hc) as [_ Hnd]. split.
           ++ intros Hnil. by rewrite Hnil in Hnz.
           ++ by apply remove_first_NoDup.
        -- rewrite lookup_insert_ne in Hl by done. by apply (Hhs c).
    + rewrite Hc, Hps. simpl.
      rewrite <- (delete_id (_channel_handlers b) channel) at 1 by done.
      exact Hdel.
  - destruct (_channel_handlers b !! channel) as [handlers|] eqn:Hc; simpl.
    + rewrite lookup_delete_eq, Hps. exact Hdel.
    + by apply (bus_inv_intro _ ps).
Qed.

Lemma bus_inv_run (cs : list (bus_call H)) (b : t H) :
  bus_inv b -> bus_inv (bus_run b cs).
Proof.
  revert b. induction cs as [|c cs IH]; intros b Hb; [done|].
  apply IH. destruct c; [by apply bus_inv_subscribe|by apply bus_inv_unsubscribe].
Qed.

(** C3. After any sequence of [subscribe] and [unsubscribe] calls on a
    started bus (calls that raise included), a channel is subscribed at the
    transport exactly when it has at least one registered handler; no
    handler is registered twice for a channel; the transport saw exactly one
    SUBSCRIBE of every subscribed channel since it was last unsubscribed,
    and none that is still open for the others; and the subscribed channels
    are as many as the channels with a handler. *)
Theorem transport_subscribed_iff_handler (cs : list (bus_call H)) :
  let b := bus_run (@started H) cs in
  exists ps,
    _pubsub b = Some ps /\
    (forall c, c ∈ channels ps <->
               exists hs, _channel_handlers b !! c = Some hs /\ (0 < length hs)%nat) /\
    (forall c hs, _channel_handlers b !! c = Some hs -> NoDup hs) /\
    (forall c, open_subscribes c 0 (calls ps)
               = if decide (c ∈ channels ps) then 1%nat else 0%nat) /\
    size (channels ps)
    = size (filter (fun p => (0 < length p.2)%nat) (_channel_handlers b)).
Proof.
  cbv zeta.
  destruct (bus_inv_run cs _ bus_inv_started) as (ps & Hps & Hch & Hhs & Hopen).
  exists ps. split; [done|]. split; [|split; [|split]].
  - intros c. rewrite Hch, elem_of_dom. split.
    + intros [hs Hc]. exists hs. split; [done|].
      destruct (Hhs _ _ Hc) as [Hne _]. destruct hs; [done|simpl; lia].
    + intros (hs & Hc & _). by exists hs.
  - intros c hs Hc. by destruct (Hhs _ _ Hc).
  - intros c. rewrite Hch. apply Hopen.
  - rewrite Hch, size_dom. f_equal. symmetry. apply map_filter_id.
    intros c hs Hc. destruct (Hhs _ _ Hc) as [Hne _].
    destruct hs; [done|simpl; lia].
Qed.

(** Removing the last handler of a channel unsubscribes it. *)
Lemma unsubscribe_last_handler (b : t H) (ps : PubSub) (channel : string) (h : H) :
  _pubsub b = Some ps ->
  _channel_handlers b !! channel = Some [h] ->
  let b' := (unsubscribe b channel (Some h)).1 in
  _channel_handlers b' !! channel = None /\
  _pubsub b' = Some (pubsub_unsubscribe ps channel).
Proof.
  intros Hps Hc. unfold unsubscribe. rewrite Hc.
  rewrite decide_True by set_solver. simpl.
  rewrite (decide_True (P := h = h)) by done. simpl.
  rewrite lookup_delete_eq, Hps. simpl. by rewrite lookup_delete_eq.
Qed.

(** C9. [unsubscribe(channel)] on a channel without registration raises
    [KeyError]; [unsubscribe(channel, handler)] on a channel that has
    handlers, this one not among them, raises [ValueError]; either way the
    bus, its registration map included, is as before the call. *)
Theorem unsubscribe_unknown_raises (b : t H) (channel : string) :
  (_channel_handlers b !! channel = None ->
   unsubscribe b channel None = (b, Raise (KeyError channel))) /\
  (forall handlers h,
     _channel_handlers b !! channel = Some handlers ->
     h ∉ handlers ->
     unsubscribe b channel (Some h)
     = (b, Raise (ValueError "list.remove(x): x not in list"))).
Proof.
  split.
  - intros Hc. unfold unsubscribe. by rewrite Hc.
  - intros handlers h Hc Hnin. unfold unsubscribe. rewrite Hc.
    by rewrite decide_False.
Qed.

End BusFacts.

Lemma unsubscribe_unknown_raises_witness :
  let b : RedisMessageBus.t nat :=
    (RedisMessageBus.subscribe RedisMessageBus.started "A" 1%nat).1 in
  RedisMessageBus.unsubscribe b "B" None = (b, Raise (KeyError "B")) /\
  RedisMessageBus.unsubscribe b "A" (Some 2%nat)
  = (b, Raise (ValueError "list.remove(x): x not in list")).
Proof.
  pose proof (unsubscribe_unknown_raises
                (RedisMessageBus.subscribe RedisMessageBus.started "A" 1%nat).1) as Hu.
  split.
  - apply (proj1 (Hu "B")). reflexivity.
  - apply (proj2 (Hu "A") [1%nat] 2%nat); [reflexivity|].
    intros Hin. apply list_elem_of_singleton in Hin. discriminate Hin.
Defined.

(** ** The message bus: the listener and a handler that raises *)

Section Listener.
Import RedisMessageBus.
Context {H J : Type}.
Variable json_loads : string -> option J.
Variable call : H -> J -> string -> result unit.


Lemma invoke_all_raises (pre post : list H) (h : H) (msg_data : J)
    (channel : string) (e : exn) :
  (forall h', h' ∈ pre -> call h' msg_data channel = Ok tt) ->
  call h msg_data channel = Raise e ->
  invoke_all call (pre ++ h :: post) msg_data channel
  = (map (fun h => Invoked h msg_data channel) (pre ++ [h]), Raise e).
Proof.
  induction pre as [|p pre IH]; intros Hall Hh; simpl.
  - by rewrite Hh.
  - rewrite (Hall p) by set_solver. rewrite IH; [done| |done].
    intros h' Hh'. apply Hall. set_solver.
Qed.


(** C2, as amended.  When a handler of the message's channel raises an
    exception, the handlers registered before it have been invoked, the
    exception is logged, and the listener goes on with the next delivery;
    the handlers registered after it are not invoked for that message. *)
Theorem handler_exception_logged_and_loop_continues
    (b : t H) (msg : message) (pre post : list H) (h : H)
    (msg_data : J) (e : exn) (rest : list received) :
  _channel_handlers b !! m_channel msg = Some (pre ++ h :: post) ->
  json_loads (m_data msg) = Some msg_data ->
  (forall h', h' ∈ pre -> call h' msg_data (m_channel msg) = Ok tt) ->
  call h msg_data (m_channel msg) = Raise e ->
  is_Exception e = true ->
  let invoked := map (fun x => Invoked x msg_data (m_channel msg)) (pre ++ [h]) in
  let evs := invoked ++ [LoggedException (m_channel msg) e] in
  on_message json_loads call b msg = (evs, Ok tt) /\
  _listen json_loads call b (Got (Some msg) :: rest)
  = (evs ++ (_listen json_loads call b rest).1, (_listen json_loads call b rest).2) /\
  (forall h', h' ∉ pre -> h' ≠ h -> Invoked h' msg_data (m_channel msg) ∉ evs).
Proof.
  intros Hc Hj Hall Hh He invoked evs.
  assert (Hon : on_message json_loads call b msg = (evs, Ok tt)).
  { unfold on_message. rewrite Hc, Hj.
    rewrite (invoke_all_raises pre post h msg_data (m_channel msg) e) by done.
    by rewrite He. }
  split; [exact Hon|]. split.
  - simpl. rewrite Hon. by destruct (_listen json_loads call b rest).
  - intros h' Hpre Hne Hin. subst evs invoked.
    apply elem_of_app in Hin as [Hin|Hin].
    + apply list_elem_of_fmap in Hin as (x & Hx & Hin). injection Hx as ->.
      apply elem_of_app in Hin as [Hin|Hin]; [done|].
      apply list_elem_of_singleton in Hin. done.
    + apply list_elem_of_singleton in Hin. discriminate Hin.
Qed.

End Listener.

Lemma handler_exception_logged_and_loop_continues_witness :
  RedisMessageBus._listen Some second_raises three_handler_bus
    [RedisMessageBus.Got (Some message_on_A); RedisMessageBus.Got (Some message_on_A)]
  = ([RedisMessageBus.Invoked 1%nat "{}" "A";
      RedisMessageBus.Invoked 2%nat "{}" "A";
      RedisMessageBus.LoggedException "A" (OtherException "RuntimeError");
      RedisMessageBus.Invoked 1%nat "{}" "A";
      RedisMessageBus.Invoked 2%nat "{}" "A";
      RedisMessageBus.LoggedException "A" (OtherException "RuntimeError")],
     RedisMessageBus.Listening).
Proof.
  assert (Hpre : forall h', h' ∈ [1%nat] -> second_raises h' "{}" "A" = Ok tt).
  { intros h' Hin. apply list_elem_of_singleton in Hin. subst h'. reflexivity. }
  apply (proj1 (proj2
    (handler_exception_logged_and_loop_continues Some second_raises
       three_handler_bus message_on_A [1%nat] [3%nat] 2%nat "{}"
       (OtherException "RuntimeError")
       [RedisMessageBus.Got (Some message_on_A)]
       eq_refl eq_refl Hpre eq_refl eq_refl))).
Defined.

(** C2 as stated fails: the third handler is registered for the channel of
    the message, the second one raises, and the third is not invoked for
    that message. *)
Lemma later_handler_skipped_after_exception :
  RedisMessageBus._channel_handlers three_handler_bus !! "A"
  = Some [1%nat; 2%nat; 3%nat] /\
  second_raises 2%nat "{}" "A" = Raise (OtherException "RuntimeError") /\
  RedisMessageBus._listen Some second_raises three_handler_bus
    [RedisMessageBus.Got (Some message_on_A)]
  = ([RedisMessageBus.Invoked 1%nat "{}" "A";
      RedisMessageBus.Invoked 2%nat "{}" "A";
      RedisMessageBus.LoggedException "A" (OtherException "RuntimeError")],
     RedisMessageBus.Listening) /\
  ~ (forall h : nat, h ∈ [1%nat; 2%nat; 3%nat] ->
       RedisMessageBus.Invoked h "{}" "A"
       ∈ (RedisMessageBus._listen Some second_raises three_handler_bus
            [RedisMessageBus.Got (Some message_on_A)]).1).
Proof.
  repeat split.
  intros Hall. specialize (Hall 3%nat).
  assert (Hin : 3%nat ∈ [1%nat; 2%nat; 3%nat]) by set_solver.
  specialize (Hall Hin). vm_compute in Hall.
  apply list_elem_of_In in Hall. simpl in Hall.
  destruct Hall as [Hx|[Hx|[Hx|[]]]]; discriminate Hx.
Qed.

(** ** Python strings: splitting and numbers *)

Section PyFacts.

Lemma fields_no_separator (p : ascii -> bool) (s : string) :
  all_chars (fun c => negb (p c)) s = true -> Py.fields p s = [s].
Proof.
  induction s as [|c s IH]; simpl; [done|].
  intros [Hc Hs]%andb_prop. apply negb_true_iff in Hc. rewrite Hc.
  by rewrite IH.
Qed.


(** [int(str(n)) == n] *)
Lemma int_of_str_of_int (z : Z) : Py.int_of_str (Py.str_of_int z) = Ok z.
Proof.
  unfold Py.int_of_str, Py.str_of_int.
  rewrite NilZero.isi.
  - by rewrite DecimalZ.of_to.
  - destruct z; simpl; try discriminate.
    intros [= Hp]. by apply DecimalPos.Unsigned.to_uint_nonnil in Hp.
  - destruct z; simpl; try discriminate.
    intros [= Hp]. by apply DecimalPos.Unsigned.to_uint_nonnil in Hp.
Qed.

(** A separator after a field without one cuts there. *)
Lemma fields_cut (p : ascii -> bool) (a b : string) (c : ascii) :
  all_chars (fun c => negb (p c)) a = true ->
  p c = true ->
  Py.fields p (a +:+ String c b) = a :: Py.fields p b.
Proof.
  intros Ha Hc. induction a as [|x a IH]; simpl.
  - by rewrite Hc.
  - simpl in Ha. apply andb_prop in Ha as [Hx Ha]. apply negb_true_iff in Hx.
    rewrite Hx. by rewrite IH.
Qed.

(** [s.split(",")] of two names joined by a comma. *)
Lemma split_sep_two (a b : string) :
  all_chars (fun c => negb (Ascii.eqb "," c)) a = true ->
  all_chars (fun c => negb (Ascii.eqb "," c)) b = true ->
  Py.split_sep "," (a +:+ String "," b) = [a; b].
Proof.
  intros Ha Hb. unfold Py.split_sep.
  rewrite fields_cut by done. by rewrite fields_no_separator.
Qed.

End PyFacts.

(** ** The session store: finding the identifier, loading *)

Section SessionLoad.
Import AioSession RedisSessionStore.

Lemma make_session_fresh (now : Z) :
  make_session (now `div` 1000) None None true None = fresh_session now.
Proof. reflexivity. Qed.




Lemma load_session_no_identifier (self : t) (now : Z) (d : Redis.db) (request : Request) :
  load_cookie self request = None ->
  load_session self now d request = (d, Ok (fresh_session now)).
Proof. intros Hc. unfold load_session. by rewrite Hc. Qed.

Lemma load_session_no_record (self : t) (now : Z) (d : Redis.db)
    (request : Request) (session_id : string) :
  load_cookie self request = Some session_id ->
  RedisSharedCache.map_get_entries now d (_storage_key session_id) = Ok ∅ ->
  load_session self now d request = (d, Ok (fresh_session now)).
Proof. intros Hc Hm. unfold load_session. by rewrite Hc, Hm. Qed.


End SessionLoad.


(** ** The session store: saving and loading again *)

Section SessionRoundTrip.
Import Redis AioSession RedisSessionStore.

(** What [load_session] does with a stored record that has its [created]
    field: it refreshes the expiry and separates [created] from the rest. *)
Lemma load_session_stored (self : t) (now : Z) (d : db) (request : Request)
    (session_id : string) (data : gmap string string) (t : option Z) (c : Z) :
  load_cookie self request = Some session_id ->
  find now d (_storage_key session_id) = Some (Entry (RHash data) t) ->
  data !! "created" = Some (Py.str_of_int c) ->
  (forall ms, idle_session_expiry_msec self = Some ms -> 0 < ms) ->
  load_session self now d request
  = (match idle_session_expiry_msec self with
     | Some ms => <[_storage_key session_id := Entry (RHash data) (Some (now + ms))]> d
     | None => d
     end,
     Ok {| identity := Some session_id; _mapping := delete "created" data;
           new := false; created := c; max_age := None |}).
Proof.
  intros Hc Hf Hcr Hms. unfold load_session. rewrite Hc.
  unfold RedisSharedCache.map_get_entries, hgetall. rewrite Hf.
  destruct (decide (size data = 0%nat)) as [Hz|_].
  { apply map_size_empty_iff in Hz. subst data. by rewrite lookup_empty in Hcr. }
  rewrite Hcr. simpl. rewrite int_of_str_of_int. simpl.
  destruct (idle_session_expiry_msec self) as [ms|] eqn:Hidle; [|done].
  unfold RedisSharedCache.expire, pexpire, forget. rewrite Hf.
  specialize (Hms ms eq_refl). by rewrite decide_False by lia.
Qed.

(** What [save_session] leaves in the store for a session that is not
    empty. *)
Lemma save_session_stored (self : t) (now : Z) (d : db) (response : Response)
    (session : Session) (session_id : string) :
  identity session = Some session_id ->
  _mapping session ≠ ∅ ->
  (forall ms, idle_session_expiry_msec self = Some ms -> 0 < ms) ->
  let data := <["created" := Py.str_of_int (created session)]> (_mapping session) in
  exists d1 response1 session1,
    save_session self now d response session = (d1, response1, session1, Ok tt) /\
    d1 !! _storage_key session_id = Some (Entry (RHash data) (idle_deadline self now)) /\
    _mapping session1 = data.
Proof.
  intros Hid Hne Hms data. unfold save_session, _get_session_data, empty.
  rewrite bool_decide_eq_false_2 by done.
  unfold _storage_key_of. rewrite Hid. simpl.
  unfold RedisSharedCacheBulkOp.map_put. fold data.
  rewrite hset_check_nonempty by apply insert_non_empty. simpl.
  unfold idle_deadline.
  destruct (idle_session_expiry_msec self) as [ms|] eqn:Hidle; simpl.
  - unfold RedisSharedCacheBulkOp.execute. simpl.
    unfold execute. simpl. unfold del, hset, pexpire, forget.
    assert (Hd : find now (delete (_storage_key session_id) d) (_storage_key session_id) = None)
      by apply find_delete.
    destruct (find now d (_storage_key session_id)); simpl; rewrite Hd; simpl;
      rewrite find_insert by done; specialize (Hms ms eq_refl);
      rewrite decide_False by lia; simpl;
      (eexists _, _, _; split; [reflexivity|]; split; [|reflexivity]);
      by rewrite lookup_insert_eq.
  - unfold RedisSharedCacheBulkOp.execute. simpl.
    unfold execute. simpl. unfold del, hset, forget.
    assert (Hd : find now (delete (_storage_key session_id) d) (_storage_key session_id) = None)
      by apply find_delete.
    destruct (find now d (_storage_key session_id)); simpl; rewrite Hd; simpl;
      (eexists _, _, _; split; [reflexivity|]; split; [|reflexivity]);
      by rewrite lookup_insert_eq.
Qed.

Lemma find_at_deadline (self : t) (now now' : Z) (d : db) (k : string) (v : rvalue) :
  d !! k = Some (Entry v (idle_deadline self now)) ->
  (forall ms, idle_session_expiry_msec self = Some ms -> now' < now + ms) ->
  find now' d k = Some (Entry v (idle_deadline self now)).
Proof.
  intros Hd Hms. unfold find. rewrite Hd. unfold live, idle_deadline in *. simpl.
  destruct (idle_session_expiry_msec self) as [ms|]; simpl; [|done].
  by rewrite bool_decide_eq_true_2 by auto.
Qed.


End SessionRoundTrip.



(** ** The gateway: strategies read from the cache *)

Section Strategies.
Import APIService.

(** Whatever is stored: a strategy with attributes is returned with its
    name, its engine and its configuration, and a stored [markets] string
    comes back cut at the commas, in order. *)
Lemma get_strategy_splits_markets (now : Z) (d : Redis.db) (name engine : string)
    (attrs cfg : gmap string string) (markets : string) :
  RedisSharedCache.map_get_entries now d
    ("moonship." +:+ engine +:+ ".strategies." +:+ name) = Ok attrs ->
  attrs ≠ ∅ ->
  RedisSharedCache.map_get_entries now d
    (("moonship." +:+ engine +:+ ".strategies." +:+ name) +:+ ".config") = Ok cfg ->
  cfg !! "markets" = Some markets ->
  _get_strategy now d name engine
  = Ok (Some (<["config" :=
                  PDict (<["markets" := PList (PStr <$> Py.split_sep "," markets)]>
                           (PStr <$> cfg))]>
                (<["engine" := PStr engine]> (<["name" := PStr name]> (PStr <$> attrs))))).
Proof.
  intros Ha Hne Hc Hm. unfold _get_strategy. rewrite Ha. cbn [bind].
  destruct (decide (size attrs = 0%nat)) as [Hz|_].
  { by apply map_size_empty_iff in Hz. }
  rewrite Hc. cbn [bind]. by rewrite Hm.
Qed.

(** C8. In a state where the map under [moonship.x.strategies.s1] is
    [{"status": "running"}] and the map under
    [moonship.x.strategies.s1.config] is [{"markets": "BTC-USD,ETH-USD"}],
    fetching strategy [s1] of engine [x] returns a structure whose
    [config.markets] is the list [["BTC-USD", "ETH-USD"]]. *)
Theorem get_strategy_markets_scenario (now : Z) (d : Redis.db) :
  RedisSharedCache.map_get_entries now d "moonship.x.strategies.s1"
  = Ok {["status" := "running"]} ->
  RedisSharedCache.map_get_entries now d "moonship.x.strategies.s1.config"
  = Ok {["markets" := "BTC-USD,ETH-USD"]} ->
  exists strategy config : gmap string pyval,
    _get_strategy now d "s1" "x" = Ok (Some strategy) /\
    strategy !! "config" = Some (PDict config) /\
    config !! "markets" = Some (PList [PStr "BTC-USD"; PStr "ETH-USD"]) /\
    strategy !! "status" = Some (PStr "running") /\
    strategy !! "name" = Some (PStr "s1") /\
    strategy !! "engine" = Some (PStr "x").
Proof.
  intros Ha Hc.
  pose proof (get_strategy_splits_markets now d "s1" "x"
                {["status" := "running"]} {["markets" := "BTC-USD,ETH-USD"]}
                "BTC-USD,ETH-USD" Ha (insert_non_empty _ _ _) Hc eq_refl) as Hg.
  eexists _, _. split; [exact Hg|]. repeat split.
Qed.

End Strategies.

Lemma get_strategy_markets_scenario_witness :
  let d0 : Redis.db := ∅ in
  let d1 := (RedisSharedCache.map_put 0 d0 "moonship.x.strategies.s1"
               {["status" := "running"]} true).1 in
  let d2 := (RedisSharedCache.map_put 0 d1 "moonship.x.strategies.s1.config"
               {["markets" := "BTC-USD,ETH-USD"]} true).1 in
  exists strategy config : gmap string pyval,
    APIService._get_strategy 0 d2 "s1" "x" = Ok (Some strategy) /\
    strategy !! "config" = Some (PDict config) /\
    config !! "markets" = Some (PList [PStr "BTC-USD"; PStr "ETH-USD"]) /\
    strategy !! "status" = Some (PStr "running") /\
    strategy !! "name" = Some (PStr "s1") /\
    strategy !! "engine" = Some (PStr "x").
Proof.
  cbv zeta.
  apply (get_strategy_markets_scenario 0
           (RedisSharedCache.map_put 0
              (RedisSharedCache.map_put 0 ∅ "moonship.x.strategies.s1"
                 {["status" := "running"]} true).1
              "moonship.x.strategies.s1.config"
              {["markets" := "BTC-USD,ETH-USD"]} true).1).
  - vm_compute. reflexivity.
  - vm_compute. reflexivity.
Defined.

(** ** The gateway: from an engine's reply to an HTTP status *)

Section EngineCommands.
Import APIService.

Lemma py_eq_None (a : scalar) : py_eq a SNone = true -> a = SNone.
Proof. by destruct a as [|[]| |]. Qed.

(** [==] on scalars is an equivalence; this is the step used below. *)
Lemma py_eq_trans (a b c : scalar) :
  py_eq a b = true -> py_eq a c = true -> py_eq b c = true.
Proof.
  destruct a as [|[]|x|x], b as [|[]|y|y], c as [|[]|z|z]; simpl;
    try discriminate; try reflexivity;
    rewrite ?bool_decide_eq_true, ?Z.eqb_eq, ?String.eqb_eq;
    try congruence; try lia.
Qed.

Variable SUCCESS_value : scalar.
Variable MISSING_OR_INVALID_PARAMETER_value : scalar.
Variable http_phrase : Z -> string.
Variable publish_and_receive :
  gmap string scalar -> string -> string -> result (gmap string scalar).

Let handle := _handle_engine_command_rsp SUCCESS_value
                MISSING_OR_INVALID_PARAMETER_value http_phrase.
Let middleware := handle_error http_phrase.

Lemma handle_success (rsp : gmap string scalar) :
  SUCCESS_value ≠ SNone ->
  py_eq (dict_get rsp "result") SUCCESS_value = true ->
  handle rsp = _ok http_phrase None.
Proof.
  intros Hs He. unfold handle, _handle_engine_command_rsp. rewrite He.
  destruct (dict_get rsp "result") eqn:Hr; try reflexivity.
  destruct SUCCESS_value; done.
Qed.

Lemma handle_missing (rsp : gmap string scalar) :
  MISSING_OR_INVALID_PARAMETER_value ≠ SNone ->
  py_eq MISSING_OR_INVALID_PARAMETER_value SUCCESS_value = false ->
  py_eq (dict_get rsp "result") MISSING_OR_INVALID_PARAMETER_value = true ->
  handle rsp
  = _bad_request http_phrase
      ("Missing or invalid: " +:+ py_str (dict_get rsp "parameter")).
Proof.
  intros Hm Hd He. unfold handle, _handle_engine_command_rsp. rewrite He.
  assert (Hs : py_eq (dict_get rsp "result") SUCCESS_value = false).
  { destruct (py_eq (dict_get rsp "result") SUCCESS_value) eqn:Hs; [|done].
    by rewrite (py_eq_trans _ _ _ He Hs) in Hd. }
  rewrite Hs.
  destruct (dict_get rsp "result") eqn:Hr; try reflexivity.
  destruct MISSING_OR_INVALID_PARAMETER_value; done.
Qed.

Lemma handle_other (rsp : gmap string scalar) :
  py_eq (dict_get rsp "result") SUCCESS_value = false ->
  py_eq (dict_get rsp "result") MISSING_OR_INVALID_PARAMETER_value = false ->
  handle rsp = _internal_error http_phrase.
Proof.
  intros Hs Hm. unfold handle, _handle_engine_command_rsp. rewrite Hs, Hm.
  by destruct (dict_get rsp "result").
Qed.

(** Every response the command path builds passes the middleware as it
    is: it is below 400 or it is JSON; and none of them is a 504. *)
Lemma handle_passes_middleware (rsp : gmap string scalar) :
  middleware (Ok (handle rsp)) = Ok (handle rsp) /\ status (handle rsp) ≠ 504.
Proof.
  unfold middleware, handle, handle_error, _handle_engine_command_rsp.
  destruct (dict_get rsp "result");
    repeat (match goal with |- context [if py_eq ?a ?b then _ else _] => destruct (py_eq a b) end);
    by split.
Qed.

End EngineCommands.

(** C6.  [SUCCESS] and [MISSING] stand for [MessageResult.SUCCESS.value]
    and [MessageResult.MISSING_OR_INVALID_PARAMETER.value]: two values of an
    enumeration, so neither is [None] and they are not equal.  Then, behind
    the error middleware: a reply whose [result] equals [SUCCESS] gives a
    200 response; one whose [result] equals [MISSING] gives a 400 response
    whose error text names the reply's [parameter]; any other reply gives
    the 500 error response; a [TimeoutError] from the request/reply call
    gives the 504 response, which no reply gives. *)
Theorem engine_reply_to_http_response
    (SUCCESS MISSING : scalar) (http_phrase : Z -> string)
    (publish_and_receive :
       gmap string scalar -> string -> string -> result (gmap string scalar)) :
  SUCCESS ≠ SNone ->
  MISSING ≠ SNone ->
  py_eq MISSING SUCCESS = false ->
  let handle := APIService._handle_engine_command_rsp SUCCESS MISSING http_phrase in
  let middleware := APIService.handle_error http_phrase in
  let start := APIService.start_strategy SUCCESS MISSING http_phrase publish_and_receive in
  let stop := APIService.stop_strategy SUCCESS MISSING http_phrase publish_and_receive in
  (forall rsp,
     py_eq (APIService.dict_get rsp "result") SUCCESS = true ->
     middleware (Ok (handle rsp)) = Ok (APIService._ok http_phrase None) /\
     APIService.status (APIService._ok http_phrase None) = 200) /\
  (forall rsp,
     py_eq (APIService.dict_get rsp "result") MISSING = true ->
     let error := "Missing or invalid: " +:+ py_str (APIService.dict_get rsp "parameter") in
     middleware (Ok (handle rsp)) = Ok (APIService._bad_request http_phrase error) /\
     APIService.status (APIService._bad_request http_phrase error) = 400 /\
     APIService.body (APIService._bad_request http_phrase error)
     = Some (PDict (<["error" := PStr error]> (<["status" := PInt 400]> ∅)))) /\
  (forall rsp,
     py_eq (APIService.dict_get rsp "result") SUCCESS = false ->
     py_eq (APIService.dict_get rsp "result") MISSING = false ->
     middleware (Ok (handle rsp)) = Ok (APIService._internal_error http_phrase) /\
     APIService.status (APIService._internal_error http_phrase) = 500) /\
  (forall strategy engine rsp,
     (publish_and_receive (APIService.engine_command "start" strategy engine)
        "moonship.message.request" "moonship.message.response" = Ok rsp ->
      middleware (start strategy engine) = Ok (handle rsp)) /\
     (publish_and_receive (APIService.engine_command "stop" strategy engine)
        "moonship.message.request" "moonship.message.response" = Ok rsp ->
      middleware (stop strategy engine) = Ok (handle rsp))) /\
  (forall strategy engine,
     (publish_and_receive (APIService.engine_command "start" strategy engine)
        "moonship.message.request" "moonship.message.response" = Raise TimeoutError ->
      middleware (start strategy engine) = Ok (APIService._timeout http_phrase)) /\
     (publish_and_receive (APIService.engine_command "stop" strategy engine)
        "moonship.message.request" "moonship.message.response" = Raise TimeoutError ->
      middleware (stop strategy engine) = Ok (APIService._timeout http_phrase))) /\
  APIService.status (APIService._timeout http_phrase) = 504 /\
  (forall rsp, APIService.status (handle rsp) ≠ 504).
Proof.
  intros Hs Hm Hd handle middleware start stop.
  pose proof (handle_passes_middleware SUCCESS MISSING http_phrase) as Hpass.
  split; [|split; [|split; [|split; [|split; [|split]]]]].
  - intros rsp He. split; [|reflexivity].
    rewrite <- (handle_success SUCCESS MISSING http_phrase rsp Hs He).
    apply Hpass.
  - intros rsp He error. subst error. split; [|split; reflexivity].
    rewrite <- (handle_missing SUCCESS MISSING http_phrase rsp Hm Hd He).
    apply Hpass.
  - intros rsp H1 H2. split; [|reflexivity].
    rewrite <- (handle_other SUCCESS MISSING http_phrase rsp H1 H2).
    apply Hpass.
  - intros strategy engine rsp.
    split; intros Hp; subst start stop; unfold APIService.start_strategy,
      APIService.stop_strategy; rewrite Hp; apply Hpass.
  - intros strategy engine.
    split; intros Hp; subst start stop; unfold APIService.start_strategy,
      APIService.stop_strategy; by rewrite Hp.
  - reflexivity.
  - intros rsp. apply Hpass.
Qed.

Lemma engine_reply_to_http_response_witness :
  let phrase := fun _ : Z => "" in
  let start :=
    APIService.start_strategy (SStr "success") (SStr "missing_or_invalid_parameter")
      phrase text_codes_bus in
  let status_of r :=
    match APIService.handle_error phrase r with
    | Ok response => Some (APIService.status response)
    | Raise _ => None
    end in
  status_of (start "s1" "x") = Some 200 /\
  status_of (start "" "x") = Some 400 /\
  status_of (start "s2" "x") = Some 500 /\
  status_of (start "late" "x") = Some 504 /\
  APIService.handle_error phrase (start "late" "x") = Ok (APIService._timeout phrase).
Proof.
  pose proof (engine_reply_to_http_response (SStr "success")
                (SStr "missing_or_invalid_parameter") (fun _ : Z => "") text_codes_bus)
    as Ht.
  assert (H1 : SStr "success" ≠ SNone) by discriminate.
  assert (H2 : SStr "missing_or_invalid_parameter" ≠ SNone) by discriminate.
  assert (H3 : py_eq (SStr "missing_or_invalid_parameter") (SStr "success") = false)
    by reflexivity.
  destruct (Ht H1 H2 H3) as (_ & _ & _ & _ & Htimeout & _ & _).
  cbv zeta. do 4 (split; [reflexivity|]).
  apply (proj1 (Htimeout "late" "x")). reflexivity.
Defined.


(* ===================================================================== *)
(** * Part III: further properties of the code                            *)
(* ===================================================================== *)

(** ** The connection: configuration errors and the count *)

Section ConnectionMore.

(** X1. [init_redis] fails before any connection is made when there is no
    client yet and the URL is not configured as a string, or names an
    environment variable that is not set: it raises [StartUpException] and
    the globals are as before (no client, the count not raised).  Once a
    client exists the configuration is not read at all. *)
Theorem init_redis_fails_fast (config : Config) (g : globals) :
  (redis g = None ->
   (forall url, settings config !! "moonship.redis.url" ≠ Some (CStr url)) ->
   init_redis config g = (g, Raise (StartUpException "Redis URL not configured"))) /\
  (forall c name,
     redis g = None ->
     settings config !! "moonship.redis.url" = Some (CStr (String "$" (String c name))) ->
     environ config !! String c name = None ->
     init_redis config g
     = (g, Raise (StartUpException
                    ("No " +:+ String c name +:+ " environment variable set")))) /\
  (forall h, redis g = Some h ->
     (init_redis config g).2 = Ok h /\
     redis_ref_count (init_redis config g).1 = redis_ref_count g + 1).
Proof.
  split; [|split].
  - intros Hn Hu. unfold init_redis, redis_url. rewrite Hn.
    destruct (settings config !! "moonship.redis.url") as [[url|b|z]|] eqn:Hs; try done.
    by destruct (Hu url).
  - intros c name Hn Hs He. unfold init_redis, redis_url. rewrite Hn, Hs.
    simpl. by rewrite He.
  - intros h Hh. unfold init_redis. by rewrite Hh.
Qed.

Lemma init_redis_fails_fast_witness :
  init_redis {| settings := ∅; environ := ∅ |} initial_globals
  = (initial_globals, Raise (StartUpException "Redis URL not configured")) /\
  init_redis {| settings := {["moonship.redis.url" := CStr "$REDIS_URL"]}; environ := ∅ |}
    initial_globals
  = (initial_globals,
     Raise (StartUpException "No REDIS_URL environment variable set")).
Proof.
  split.
  - apply (proj1 (init_redis_fails_fast {| settings := ∅; environ := ∅ |} initial_globals));
      [reflexivity|]. intros url. discriminate.
  - apply (proj1 (proj2 (init_redis_fails_fast
             {| settings := {["moonship.redis.url" := CStr "$REDIS_URL"]}; environ := ∅ |}
             initial_globals)) "R"%char "EDIS_URL"); reflexivity.
Defined.


Lemma close_redis_count (g : globals) :
  redis_ref_count (close_redis g).1 = redis_ref_count g - 1.
Proof.
  unfold close_redis.
  destruct (decide (redis_ref_count g - 1 = 0)); [destruct (redis g)|]; reflexivity.
Qed.



(** What holds of the globals in a process. *)
Lemma one_client_invariant (cs : list conn_call) (g : globals) :
  ((redis g = None /\ made g = 0%nat /\ closed g = []) \/
   (exists c, redis g = Some c /\ c_id c = 0%nat /\ made g = 1%nat /\
              Forall (fun i => i = 0%nat) (closed g))) ->
  (made (conn_run g cs) <= 1)%nat /\
  (forall c, redis (conn_run g cs) = Some c -> c_id c = 0%nat) /\
  Forall (fun i => i = 0%nat) (closed (conn_run g cs)).
Proof.
  revert g. induction cs as [|c cs IH]; intros g Hg.
  - simpl. destruct Hg as [(Hn & Hm & Hc)|(h & Hh & Hid & Hm & Hc)].
    + rewrite Hn, Hm, Hc. repeat split; [lia|done|constructor].
    + rewrite Hh, Hm. repeat split; [lia| |done]. by intros ? [= <-].
  - unfold conn_run in *. simpl foldl. apply IH.
    destruct c as [config|]; simpl.
    + unfold init_redis.
      destruct Hg as [(Hn & Hm & Hc)|(h & Hh & Hid & Hm & Hc)].
      * rewrite Hn. destruct (redis_url config) as [url|e]; simpl.
        -- right. eexists. repeat split; simpl; [done|by rewrite Hm|by rewrite Hc].
        -- by left.
      * rewrite Hh. simpl. right. by exists h.
    + unfold close_redis.
      destruct Hg as [(Hn & Hm & Hc)|(h & Hh & Hid & Hm & Hc)].
      * rewrite Hn. destruct (decide (redis_ref_count g - 1 = 0)); simpl; by left.
      * rewrite Hh. destruct (decide (redis_ref_count g - 1 = 0)); simpl; right;
          exists h; repeat split; try done.
        apply Forall_app. split; [done|]. by constructor.
Qed.

(** X3. In one process at most one client is ever made, whatever the
    sequence of acquires and releases: every acquire after the first
    returns that client, and every close, however many there are, closes
    that same client again. *)
Theorem at_most_one_client_per_process (cs : list conn_call) :
  let g := conn_run initial_globals cs in
  (made g <= 1)%nat /\
  (forall c, redis g = Some c -> c_id c = 0%nat) /\
  Forall (fun i => i = 0%nat) (closed g) /\
  (forall config c, redis g = Some c -> (init_redis config g).2 = Ok c).
Proof.
  cbv zeta.
  destruct (one_client_invariant cs initial_globals) as (H1 & H2 & H3).
  { left. done. }
  repeat split; try done.
  intros config c Hc. unfold init_redis. by rewrite Hc.
Qed.

End ConnectionMore.

(** ** Shared cache: lists, sets, keys *)

Section CacheMore.
Import Redis.

Lemma list_get_elements_insert (now : Z) (d : db) (k : string) (l : list string)
    (t : option Z) :
  live now (Entry (RList l) t) = true ->
  RedisSharedCache.list_get_elements now (<[k := Entry (RList l) t]> d) k = Ok l.
Proof.
  intros Hl. unfold RedisSharedCache.list_get_elements, lrange.
  rewrite find_insert by done. by rewrite lrange_list_all.
Qed.

(** X4. The list of a key is a sequence with two ends: after
    [list_push_head] the element is first and [list_get_head] reads it,
    after [list_push_tail] it is last and [list_get_tail] reads it, and the
    elements that were there keep their order. *)
Theorem list_push_at_both_ends (now : Z) (d : db) (k e : string) (l : list string) :
  RedisSharedCache.list_get_elements now d k = Ok l ->
  let h := RedisSharedCache.list_push_head now d k e in
  let t := RedisSharedCache.list_push_tail now d k e in
  (h.2 = Ok tt /\
   RedisSharedCache.list_get_elements now h.1 k = Ok (e :: l) /\
   RedisSharedCache.list_get_head now h.1 k = Ok (Some e)) /\
  (t.2 = Ok tt /\
   RedisSharedCache.list_get_elements now t.1 k = Ok (l ++ [e]) /\
   RedisSharedCache.list_get_tail now t.1 k = Ok (Some e)).
Proof.
  intros Hget. cbv zeta.
  unfold RedisSharedCache.list_push_head, RedisSharedCache.list_push_tail,
    RedisSharedCache.list_get_head, RedisSharedCache.list_get_tail,
    lpush, rpush, lindex, forget.
  assert (Hlast : forall l0 : list string,
            (l0 ++ [e]) !! Z.to_nat (Z.of_nat (length (l0 ++ [e])) + -1) = Some e).
  { intros l0. rewrite length_app. simpl.
    replace (Z.to_nat (Z.of_nat (length l0 + 1) + -1)) with (length l0) by lia.
    by apply list_lookup_middle. }
  assert (Hpos : forall l0 : list string,
            0 <= Z.of_nat (length (l0 ++ [e])) + -1).
  { intros l0. rewrite length_app. simpl. lia. }
  destruct (list_get_elements_inv _ _ _ _ Hget) as [[Hf ->]|[t0 Hf]]; rewrite Hf; simpl.
  - rewrite !list_get_elements_insert by done. rewrite !find_insert by done. simpl.
    done.
  - pose proof (find_live _ _ _ _ Hf) as Hl.
    rewrite !list_get_elements_insert by done. rewrite !find_insert by done.
    simpl. repeat split.
    destruct (decide (0 <= Z.of_nat (length (l ++ [e])) + -1)) as [_|Hn].
    + by rewrite Hlast.
    + by destruct (Hn (Hpos l)).
Qed.

Lemma list_push_at_both_ends_witness :
  let d : db := <["q" := Entry (RList ["a"; "b"]) None]> ∅ in
  RedisSharedCache.list_get_elements 0
    (RedisSharedCache.list_push_head 0 d "q" "x").1 "q" = Ok ["x"; "a"; "b"] /\
  RedisSharedCache.list_get_elements 0
    (RedisSharedCache.list_push_tail 0 d "q" "x").1 "q" = Ok ["a"; "b"; "x"].
Proof.
  pose proof (list_push_at_both_ends 0 (<["q" := Entry (RList ["a"; "b"]) None]> ∅)
                "q" "x" ["a"; "b"] eq_refl) as [(_ & H1 & _) (_ & H2 & _)].
  split; [exact H1|exact H2].
Defined.

(** X5. [list_pop_head] returns the first element and leaves the rest,
    [list_pop_tail] the last one; on a key without a list both return
    [None] and change nothing. *)
Theorem list_pop_at_both_ends (now : Z) (d : db) (k : string) (l : list string) :
  RedisSharedCache.list_get_elements now d k = Ok l ->
  (l = [] ->
   RedisSharedCache.list_pop_head now d k = (d, Ok None) /\
   RedisSharedCache.list_pop_tail now d k = (d, Ok None)) /\
  (forall x l', l = x :: l' ->
     (RedisSharedCache.list_pop_head now d k).2 = Ok (Some x) /\
     RedisSharedCache.list_get_elements now
       (RedisSharedCache.list_pop_head now d k).1 k = Ok l') /\
  (forall x l', l = l' ++ [x] ->
     (RedisSharedCache.list_pop_tail now d k).2 = Ok (Some x) /\
     RedisSharedCache.list_get_elements now
       (RedisSharedCache.list_pop_tail now d k).1 k = Ok l').
Proof.
  intros Hget.
  unfold RedisSharedCache.list_pop_head, RedisSharedCache.list_pop_tail, lpop, rpop.
  destruct (list_get_elements_inv _ _ _ _ Hget) as [[Hf ->]|[t0 Hf]]; rewrite Hf.
  - split; [done|]. split; intros x l' Hl; [done|by destruct l'].
  - pose proof (find_live _ _ _ _ Hf) as Hl. split; [by intros ->|]. split.
    + intros x l' ->. split; [done|]. by apply list_get_elements_put.
    + intros x l' ->. rewrite rev_app_distr. simpl. rewrite rev_involutive.
      split; [done|]. by apply list_get_elements_put.
Qed.

Lemma list_pop_at_both_ends_witness :
  let d : db := <["q" := Entry (RList ["a"; "b"; "c"]) None]> ∅ in
  (RedisSharedCache.list_pop_head 0 d "q").2 = Ok (Some "a") /\
  (RedisSharedCache.list_pop_tail 0 d "q").2 = Ok (Some "c").
Proof.
  pose proof (list_pop_at_both_ends 0 (<["q" := Entry (RList ["a"; "b"; "c"]) None]> ∅)
                "q" ["a"; "b"; "c"] eq_refl) as (_ & Hh & Ht).
  split.
  - apply (Hh "a" ["b"; "c"] eq_refl).
  - apply (Ht "c" ["a"; "b"] eq_refl).
Defined.

Lemma set_get_elements_inv (now : Z) (d : db) (k : string) (s : gset string) :
  RedisSharedCache.set_get_elements now d k = Ok s ->
  (find now d k = None /\ s = ∅) \/
  (exists t, find now d k = Some (Entry (RSet s) t)).
Proof.
  unfold RedisSharedCache.set_get_elements, smembers.
  destruct (find now d k) as [[[l0|s0|h0] t]|] eqn:Hf; try discriminate.
  - intros [= <-]. right. by exists t.
  - intros [= <-]. by left.
Qed.

Lemma set_get_elements_put (now : Z) (d : db) (k : string) (s : gset string)
    (t : option Z) :
  live now (Entry (RSet s) t) = true ->
  RedisSharedCache.set_get_elements now (put d k (RSet s) t) k = Ok s.
Proof.
  intros Hl. unfold RedisSharedCache.set_get_elements, smembers.
  rewrite find_put by done. simpl.
  destruct (bool_decide (s = ∅)) eqn:He; [|done].
  apply bool_decide_eq_true_1 in He. by subst s.
Qed.

(** X6. The set of a key: after [set_add] the members are the old ones and
    the element, so adding a member again changes nothing; after
    [set_remove] they are the old ones without it. *)
Theorem set_add_and_remove (now : Z) (d : db) (k e : string) (s : gset string) :
  RedisSharedCache.set_get_elements now d k = Ok s ->
  let a := RedisSharedCache.set_add now d k e in
  let r := RedisSharedCache.set_remove now d k e in
  a.2 = Ok tt /\
  RedisSharedCache.set_get_elements now a.1 k = Ok ({[e]} ∪ s) /\
  (e ∈ s -> RedisSharedCache.set_get_elements now a.1 k = Ok s) /\
  r.2 = Ok tt /\
  RedisSharedCache.set_get_elements now r.1 k = Ok (s ∖ {[e]}).
Proof.
  intros Hget. cbv zeta.
  assert (Hin : e ∈ s -> {[e]} ∪ s = s) by set_solver.
  unfold RedisSharedCache.set_add, RedisSharedCache.set_remove, sadd, srem, forget.
  destruct (set_get_elements_inv _ _ _ _ Hget) as [[Hf ->]|[t0 Hf]]; rewrite Hf; simpl.
  - unfold RedisSharedCache.set_get_elements, smembers.
    rewrite find_insert by done. rewrite Hf. simpl.
    rewrite (right_id_L ∅ (∪)). repeat split; try done.
    f_equal. set_solver.
  - pose proof (find_live _ _ _ _ Hf) as Hl.
    rewrite set_get_elements_put by done.
    unfold RedisSharedCache.set_get_elements, smembers.
    rewrite find_insert by done. simpl. repeat split.
    intros Hx. by rewrite Hin.
Qed.

Lemma set_add_and_remove_witness :
  let d : db := <["engines" := Entry (RSet {["x"]}) None]> ∅ in
  RedisSharedCache.set_get_elements 0
    (RedisSharedCache.set_add 0 d "engines" "y").1 "engines" = Ok ({["y"]} ∪ {["x"]}) /\
  RedisSharedCache.set_get_elements 0
    (RedisSharedCache.set_remove 0 d "engines" "x").1 "engines" = Ok ({["x"]} ∖ {["x"]}).
Proof.
  pose proof (set_add_and_remove 0 (<["engines" := Entry (RSet {["x"]}) None]> ∅)
                "engines") as Hs.
  split.
  - apply (Hs "y" {["x"]}). reflexivity.
  - apply (Hs "x" {["x"]}). reflexivity.
Defined.

(** X7. A key that holds a map refuses every list and set operation, and a
    key that holds a list refuses [map_put] in append mode, [map_get],
    [map_get_entries] and every set operation: the call raises the type
    error of the store and the store is as before. *)
Theorem wrong_kind_raises_and_changes_nothing (now : Z) (d : db) (k : string) :
  (forall h t, find now d k = Some (Entry (RHash h) t) ->
     forall e,
       RedisSharedCache.list_push_head now d k e = (d, Raise wrongtype) /\
       RedisSharedCache.list_push_tail now d k e = (d, Raise wrongtype) /\
       RedisSharedCache.list_pop_head now d k = (d, Raise wrongtype) /\
       RedisSharedCache.list_pop_tail now d k = (d, Raise wrongtype) /\
       RedisSharedCache.list_remove now d k e = (d, Raise wrongtype) /\
       RedisSharedCache.list_get_head now d k = Raise wrongtype /\
       RedisSharedCache.list_get_tail now d k = Raise wrongtype /\
       RedisSharedCache.list_get_elements now d k = Raise wrongtype /\
       RedisSharedCache.set_add now d k e = (d, Raise wrongtype) /\
       RedisSharedCache.set_remove now d k e = (d, Raise wrongtype) /\
       RedisSharedCache.set_get_elements now d k = Raise wrongtype) /\
  (forall l t, find now d k = Some (Entry (RList l) t) ->
     forall e entries,
       entries ≠ ∅ ->
       RedisSharedCache.map_put now d k entries true = (d, Raise wrongtype) /\
       RedisSharedCache.map_get now d k e = Raise wrongtype /\
       RedisSharedCache.map_get_entries now d k = Raise wrongtype /\
       RedisSharedCache.set_add now d k e = (d, Raise wrongtype) /\
       RedisSharedCache.set_remove now d k e = (d, Raise wrongtype) /\
       RedisSharedCache.set_get_elements now d k = Raise wrongtype).
Proof.
  split.
  - intros h t Hf e.
    unfold RedisSharedCache.list_push_head, RedisSharedCache.list_push_tail,
      RedisSharedCache.list_pop_head, RedisSharedCache.list_pop_tail,
      RedisSharedCache.list_remove, RedisSharedCache.list_get_head,
      RedisSharedCache.list_get_tail, RedisSharedCache.list_get_elements,
      RedisSharedCache.set_add, RedisSharedCache.set_remove,
      RedisSharedCache.set_get_elements,
      lpush, rpush, lpop, rpop, lrem, lindex, lrange, sadd, srem, smembers, forget.
    rewrite Hf. by repeat split.
  - intros l t Hf e entries Hne.
    unfold RedisSharedCache.map_put, RedisSharedCache.map_get,
      RedisSharedCache.map_get_entries, RedisSharedCache.set_add,
      RedisSharedCache.set_remove, RedisSharedCache.set_get_elements,
      hset, hget, hgetall, sadd, srem, smembers, forget.
    simpl. rewrite hset_check_nonempty by done. rewrite Hf. by repeat split.
Qed.

Lemma wrong_kind_raises_and_changes_nothing_witness :
  let d : db := <["s" := Entry (RHash {["user" := "admin"]}) None]> ∅ in
  RedisSharedCache.list_push_head 0 d "s" "x" = (d, Raise wrongtype) /\
  RedisSharedCache.set_add 0 d "s" "x" = (d, Raise wrongtype).
Proof.
  pose proof (proj1 (wrong_kind_raises_and_changes_nothing 0
                (<["s" := Entry (RHash {["user" := "admin"]}) None]> ∅) "s")
                {["user" := "admin"]} None eq_refl "x") as Hw.
  split; [apply Hw|apply Hw].
Defined.

(** X8. [delete] removes whatever kind of value the key holds: afterwards
    the key reads as an empty list, an empty set and an empty map, and
    every other key is as before. *)
Theorem delete_removes_every_kind (now : Z) (d : db) (k : string) :
  let r := RedisSharedCache.delete now d k in
  r.2 = Ok tt /\
  RedisSharedCache.list_get_elements now r.1 k = Ok [] /\
  RedisSharedCache.set_get_elements now r.1 k = Ok ∅ /\
  RedisSharedCache.map_get_entries now r.1 k = Ok ∅ /\
  (forall now' k', k' ≠ k -> find now' r.1 k' = find now' d k').
Proof.
  cbv zeta. unfold RedisSharedCache.delete, del, forget.
  assert (Hd : forall r : db * result Z, r.1 = delete k d -> 
            RedisSharedCache.list_get_elements now r.1 k = Ok [] /\
            RedisSharedCache.set_get_elements now r.1 k = Ok ∅ /\
            RedisSharedCache.map_get_entries now r.1 k = Ok ∅ /\
            (forall now' k', k' ≠ k -> find now' r.1 k' = find now' d k')).
  { intros r ->.
    unfold RedisSharedCache.list_get_elements, RedisSharedCache.set_get_elements,
      RedisSharedCache.map_get_entries, lrange, smembers, hgetall.
    rewrite find_delete. repeat split. intros now' k' Hne. by apply find_delete_ne. }
  destruct (find now d k); simpl; (split; [done|]); by apply (Hd (_, Ok 0)).
Qed.

(** X9. [expire] with a positive time on a key that is there: the value is
    read unchanged at every time before [now + time_msec] and the key is
    gone from then on; a time that is not positive removes the key at once;
    other keys are not touched; a key that is not there stays away. *)
Theorem expire_sets_the_deadline (now : Z) (d : db) (k : string) (ms : Z) :
  let r := RedisSharedCache.expire now d k ms in
  r.2 = Ok tt /\
  (forall v t, find now d k = Some (Entry v t) ->
     (0 < ms ->
      (forall now', now' < now + ms -> find now' r.1 k = Some (Entry v (Some (now + ms)))) /\
      (forall now', now + ms <= now' -> find now' r.1 k = None)) /\
     (ms <= 0 -> forall now', find now' r.1 k = None)) /\
  (find now d k = None -> r.1 = d) /\
  (forall now' k', k' ≠ k -> find now' r.1 k' = find now' d k').
Proof.
  cbv zeta. unfold RedisSharedCache.expire, pexpire, forget.
  destruct (find now d k) as [[v t]|] eqn:Hf.
  - destruct (decide (ms <= 0)) as [Hle|Hgt]; simpl.
    + split; [done|]. split; [|split; [done|]].
      * intros v' t' [= <- <-]. split; [lia|]. intros _ now'. apply find_delete.
      * intros now' k' Hne. by apply find_delete_ne.
    + split; [done|]. split; [|split; [done|]].
      * intros v' t' [= <- <-]. split; [|lia]. intros _. split.
        -- intros now' Hlt. apply find_insert. unfold live. simpl.
           by apply bool_decide_eq_true_2.
        -- intros now' Hge. unfold find. rewrite lookup_insert_eq. unfold live. simpl.
           rewrite bool_decide_eq_false_2; [done|lia].
      * intros now' k' Hne. by apply find_insert_ne.
  - simpl. split; [done|]. split; [done|]. split; [done|]. done.
Qed.




End CacheMore.

(** ** The message bus: order, round trips, shutdown *)

Section BusMore.
Import RedisMessageBus BusLifecycle.
Context {H : Type} `{EqDecision H}.

Lemma remove_first_snoc (h : H) (hs : list H) :
  h ∉ hs -> remove_first h (hs ++ [h]) = hs.
Proof.
  induction hs as [|x hs IH]; intros Hn; simpl.
  - by rewrite decide_True.
  - rewrite decide_False by set_solver. rewrite IH by set_solver. done.
Qed.

Lemma bus_eta (b : t H) :
  {| _channel_handlers := _channel_handlers b; _pubsub := _pubsub b |} = b.
Proof. by destruct b. Qed.

(** X11. On a bus reached by any calls, subscribing a handler that is not
    registered for the channel and then unsubscribing it leaves the
    registrations and the transport subscriptions exactly as they were. *)
Theorem subscribe_then_unsubscribe_restores (cs : list (bus_call H))
    (channel : string) (h : H) :
  let b := bus_run (@started H) cs in
  (forall hs, _channel_handlers b !! channel = Some hs -> h ∉ hs) ->
  let b' := (unsubscribe (subscribe b channel h).1 channel (Some h)).1 in
  (subscribe b channel h).2 = Ok tt /\
  (unsubscribe (subscribe b channel h).1 channel (Some h)).2 = Ok tt /\
  _channel_handlers b' = _channel_handlers b /\
  channels <$> _pubsub b' = channels <$> _pubsub b.
Proof.
  intros b Hn.
  destruct (bus_inv_run cs _ bus_inv_started) as (ps & Hps & Hch & Hhs & _).
  fold b in Hps, Hch, Hhs. clearbody b. cbv zeta.
  unfold subscribe.
  destruct (_channel_handlers b !! channel) as [hs|] eqn:Hc.
  - specialize (Hn hs eq_refl). rewrite decide_False by done. simpl.
    unfold unsubscribe. simpl. rewrite lookup_insert_eq.
    rewrite decide_True by set_solver. rewrite remove_first_snoc by done.
    destruct (Hhs _ _ Hc) as [Hne _].
    rewrite decide_False by (by destruct hs).
    rewrite lookup_insert_eq. simpl. rewrite insert_insert_eq.
    by rewrite insert_id.
  - rewrite Hps. simpl.
    unfold unsubscribe. simpl. rewrite insert_insert_eq, lookup_insert_eq.
    rewrite decide_True by set_solver. simpl.
    rewrite (decide_True (P := h = h)) by done. simpl.
    rewrite lookup_delete_eq. simpl. rewrite delete_insert_id by done.
    repeat split. f_equal.
    apply not_elem_of_dom_2 in Hc. rewrite <- Hch in Hc. set_solver.
Qed.

Lemma unsubscribe_channel (b : t H) (ps : PubSub) (channel : string) (hs : list H) :
  _pubsub b = Some ps ->
  _channel_handlers b !! channel = Some hs ->
  unsubscribe b channel None
  = ({| _channel_handlers := delete channel (_channel_handlers b);
        _pubsub := Some (pubsub_unsubscribe ps channel) |}, Ok tt).
Proof.
  intros Hps Hc. unfold unsubscribe. rewrite Hc. by rewrite lookup_delete_eq, Hps.
Qed.

Lemma unsubscribe_each_all (keys : list string) (b : t H) :
  bus_inv b ->
  NoDup keys ->
  (forall k, k ∈ keys -> k ∈ dom (_channel_handlers b)) ->
  exists b',
    unsubscribe_each b keys = (b', Ok tt) /\
    bus_inv b' /\
    dom (_channel_handlers b') = dom (_channel_handlers b) ∖ list_to_set keys.
Proof.
  revert b. induction keys as [|k keys IH]; intros b Hb Hnd Hin.
  - exists b. simpl. repeat split; [done|]. set_solver.
  - apply NoDup_cons in Hnd as [Hk Hnd].
    destruct Hb as (ps & Hps & Hb').
    assert (Hkd : k ∈ dom (_channel_handlers b)) by (apply Hin; set_solver).
    apply elem_of_dom in Hkd as [hs Hc].
    pose proof (bus_inv_unsubscribe b k None
                  (ex_intro _ ps (conj Hps Hb'))) as Hinv.
    simpl. rewrite (unsubscribe_channel b ps k hs Hps Hc) in *. simpl in Hinv.
    destruct (IH _ Hinv Hnd) as (b' & He & Hinv' & Hdom).
    { intros k' Hk'. simpl. rewrite dom_delete_L.
      apply elem_of_difference. split; [apply Hin; set_solver|].
      intros ->%elem_of_singleton. done. }
    exists b'. split; [done|]. split; [done|].
    rewrite Hdom. simpl. rewrite dom_delete_L. set_solver.
Qed.

(** X12. [close] after a [start] that went through, with any subscribe and
    unsubscribe calls in between: every channel left is unsubscribed without
    an exception, no handler and no transport subscription remains, and the
    count of the connection is where it was before [start]. *)
Theorem close_undoes_start (config : Config) (g : globals)
    (cs : list (bus_call H)) (keys : list string) :
  let st := start config g (@new H) in
  st.2 = Ok tt ->
  let b := bus_run st.1.2 cs in
  enumerates keys b ->
  exists b',
    close st.1.1 b keys = ((close_redis st.1.1).1, b', (close_redis st.1.1).2) /\
    _channel_handlers b' = ∅ /\
    channels <$> _pubsub b' = Some ∅ /\
    redis_ref_count (close st.1.1 b keys).1.1 = redis_ref_count g.
Proof.
  cbv zeta. unfold start.
  destruct (init_redis config g) as [g1 [c|e]] eqn:Hi; cbn [fst snd]; [|discriminate].
  intros _ [Hnd Hkeys].
  assert (Hcount : redis_ref_count g1 = redis_ref_count g + 1).
  { unfold init_redis in Hi. destruct (redis g).
    - injection Hi as <- _. done.
    - destruct (redis_url config); [|discriminate]. injection Hi as <- _. done. }
  change {| _channel_handlers := _channel_handlers (@new H); _pubsub := Some new_pubsub |}
    with (@started H) in *.
  destruct (unsubscribe_each_all keys (bus_run started cs)
              (bus_inv_run cs _ bus_inv_started) Hnd) as (b1 & He & Hinv & Hdom).
  { intros k Hk. by apply Hkeys. }
  destruct Hinv as (ps & Hps & Hch & _).
  assert (Hempty : _channel_handlers b1 = ∅).
  { apply dom_empty_iff_L. rewrite Hdom. apply set_eq. intros k.
    rewrite elem_of_difference, elem_of_list_to_set, <- Hkeys. set_solver. }
  unfold close. rewrite He, Hps.
  destruct (close_redis g1) as [g2 r2] eqn:Hcl.
  eexists. split; [reflexivity|]. cbn [fst snd _channel_handlers _pubsub].
  split; [done|]. split; [done|].
  pose proof (close_redis_count g1) as Hc. rewrite Hcl in Hc. simpl in Hc. lia.
Qed.

End BusMore.

Lemma close_undoes_start_witness :
  exists b' : RedisMessageBus.t nat,
    BusLifecycle.close
      (RedisMessageBus.start local_config initial_globals (@RedisMessageBus.new nat)).1.1
      (RedisMessageBus.bus_run
         (RedisMessageBus.start local_config initial_globals (@RedisMessageBus.new nat)).1.2
         [RedisMessageBus.Subscribe "A" 1%nat; RedisMessageBus.Subscribe "B" 2%nat])
      ["B"; "A"]
    = ((close_redis
          (RedisMessageBus.start local_config initial_globals (@RedisMessageBus.new nat)).1.1).1,
       b',
       (close_redis
          (RedisMessageBus.start local_config initial_globals (@RedisMessageBus.new nat)).1.1).2) /\
    RedisMessageBus._channel_handlers b' = ∅ /\
    RedisMessageBus.channels <$> RedisMessageBus._pubsub b' = Some ∅ /\
    redis_ref_count
      (BusLifecycle.close
         (RedisMessageBus.start local_config initial_globals (@RedisMessageBus.new nat)).1.1
         (RedisMessageBus.bus_run
            (RedisMessageBus.start local_config initial_globals (@RedisMessageBus.new nat)).1.2
            [RedisMessageBus.Subscribe "A" 1%nat; RedisMessageBus.Subscribe "B" 2%nat])
         ["B"; "A"]).1.1
    = redis_ref_count initial_globals.
Proof.
  apply (close_undoes_start local_config initial_globals
           [RedisMessageBus.Subscribe "A" 1%nat; RedisMessageBus.Subscribe "B" 2%nat]
           ["B"; "A"]).
  - reflexivity.
  - split.
    + repeat constructor; set_solver.
    + intros k.
      assert (Hd : dom (RedisMessageBus._channel_handlers
         (RedisMessageBus.bus_run
         (RedisMessageBus.start local_config initial_globals (@RedisMessageBus.new nat)).1.2
         [RedisMessageBus.Subscribe "A" 1%nat; RedisMessageBus.Subscribe "B" 2%nat]))
         = ({["A"; "B"]} : gset string)).
      { vm_compute. reflexivity. }
      rewrite Hd. set_solver.
Defined.

Lemma subscribe_then_unsubscribe_restores_witness :
  let b : RedisMessageBus.t nat :=
    RedisMessageBus.bus_run RedisMessageBus.started [RedisMessageBus.Subscribe "A" 1%nat] in
  RedisMessageBus._channel_handlers
    (RedisMessageBus.unsubscribe (RedisMessageBus.subscribe b "A" 2%nat).1 "A" (Some 2%nat)).1
  = RedisMessageBus._channel_handlers b.
Proof.
  apply (subscribe_then_unsubscribe_restores [RedisMessageBus.Subscribe "A" 1%nat] "A" 2%nat).
  intros hs [= <-]. intros Hin. apply list_elem_of_singleton in Hin. discriminate Hin.
Defined.

(** ** The listener: what ends it and what does not *)

Section ListenerMore.
Import RedisMessageBus.
Context {H J : Type}.
Variable json_loads : string -> option J.
Variable call : H -> J -> string -> result unit.




(** X14. Deliveries are handled in the order they arrive: the events of
    two runs of deliveries in a row are the events of the first followed by
    those of the second, unless the first already ended the loop, and then
    nothing of the second is handled. *)
Theorem listen_in_arrival_order (b : t H) (s1 s2 : list received) :
  _listen json_loads call b (s1 ++ s2) =
  match (_listen json_loads call b s1).2 with
  | Listening =>
      ((_listen json_loads call b s1).1 ++ (_listen json_loads call b s2).1,
       (_listen json_loads call b s2).2)
  | _ => _listen json_loads call b s1
  end.
Proof.
  induction s1 as [|r s1 IH]; simpl.
  - by destruct (_listen json_loads call b s2).
  - destruct r as [[msg|]|e].
    + destruct (on_message json_loads call b msg) as [evs [[]|e]].
      * rewrite IH. destruct (_listen json_loads call b s1) as [evs1 st1]. simpl.
        destruct st1; try reflexivity. by rewrite app_assoc.
      * by destruct e.
    + apply IH.
    + by destruct e.
Qed.

(** X15. A payload that does not decode is logged and skipped: no handler
    is invoked for it and the loop goes on.  A message on a channel without
    handlers, and a delivery of nothing, leave no trace at all. *)
Theorem undecodable_payload_is_skipped (b : t H) (msg : message) (rest : list received) :
  (forall handlers,
     _channel_handlers b !! m_channel msg = Some handlers ->
     json_loads (m_data msg) = None ->
     _listen json_loads call b (Got (Some msg) :: rest)
     = (LoggedException (m_channel msg) JSONDecodeError
          :: (_listen json_loads call b rest).1,
        (_listen json_loads call b rest).2)) /\
  (_channel_handlers b !! m_channel msg = None ->
   _listen json_loads call b (Got (Some msg) :: rest) = _listen json_loads call b rest) /\
  _listen json_loads call b (Got None :: rest) = _listen json_loads call b rest.
Proof.
  split; [|split].
  - intros handlers Hc Hj. simpl. unfold on_message. rewrite Hc, Hj. simpl.
    by destruct (_listen json_loads call b rest).
  - intros Hc. simpl. unfold on_message. rewrite Hc.
    by destruct (_listen json_loads call b rest).
  - reflexivity.
Qed.

(** X16. Cancellation ends the listener quietly.  When the wait for a
    message is cancelled, or a handler raises [CancelledError], [_listen]
    returns without an exception and without a log entry, and no later
    delivery is handled; any other exception of the wait leaves [_listen]
    as it is. *)
Theorem cancellation_ends_listener (b : t H) (rest : list received) :
  _listen json_loads call b (GetRaised CancelledError :: rest) = ([], Finished) /\
  (forall e, e ≠ CancelledError ->
     _listen json_loads call b (GetRaised e :: rest) = ([], Died e)) /\
  (forall msg pre post h msg_data,
     _channel_handlers b !! m_channel msg = Some (pre ++ h :: post) ->
     json_loads (m_data msg) = Some msg_data ->
     (forall h', h' ∈ pre -> call h' msg_data (m_channel msg) = Ok tt) ->
     call h msg_data (m_channel msg) = Raise CancelledError ->
     _listen json_loads call b (Got (Some msg) :: rest)
     = (map (fun x => Invoked x msg_data (m_channel msg)) (pre ++ [h]), Finished)).
Proof.
  split; [reflexivity|]. split.
  - intros e He. by destruct e.
  - intros msg pre post h msg_data Hc Hj Hpre Hh. simpl. unfold on_message.
    rewrite Hc, Hj.
    by rewrite (invoke_all_raises json_loads call pre post h msg_data (m_channel msg)
                 CancelledError).
Qed.

End ListenerMore.

Section FanOut.
Import RedisMessageBus.
Context {H J : Type} `{EqDecision H}.
Variable json_loads : string -> option J.
Variable call : H -> J -> string -> result unit.



End FanOut.



(** ** The session store: logging out, expiring, broken records *)

Section SessionMore.
Import Redis AioSession RedisSessionStore.

(** X18. Saving a session that has been emptied removes its record and
    deletes the cookie: a load with the same identifier afterwards, at any
    time, gives a new empty session and leaves the store alone. *)
Theorem save_empty_session_removes_record (self : t) (now : Z) (d : db)
    (response : Response) (session : Session) (session_id : string) :
  identity session = Some session_id ->
  _mapping session = ∅ ->
  let r := save_session self now d response session in
  r.2 = Ok tt /\
  r.1.2 = session /\
  cookie_actions r.1.1.2 = cookie_actions response ++ [DelCookie (cookie_name self)] /\
  r.1.1.1 !! _storage_key session_id = None /\
  (forall now' request,
     load_cookie self request = Some session_id ->
     load_session self now' r.1.1.1 request = (r.1.1.1, Ok (fresh_session now'))).
Proof.
  intros Hid Hm. cbv zeta.
  unfold save_session, empty, _storage_key_of. rewrite Hid, Hm.
  rewrite bool_decide_eq_true_2 by done. simpl.
  unfold RedisSharedCache.delete, del, forget.
  assert (Hl : forall now' request,
            load_cookie self request = Some session_id ->
            load_session self now' (delete (_storage_key session_id) d) request
            = (delete (_storage_key session_id) d, Ok (fresh_session now'))).
  { intros now' request Hc. apply (load_session_no_record _ _ _ _ session_id Hc).
    unfold RedisSharedCache.map_get_entries, hgetall. by rewrite find_delete. }
  destruct (find now d (_storage_key session_id)); simpl;
    (repeat split; [apply lookup_delete_eq|apply Hl]).
Qed.

Lemma save_empty_session_removes_record_witness :
  let stored : db :=
    <[RedisSessionStore._storage_key "0123abcd" :=
        Entry (RHash (<["created" := "1700000000"]> {["user" := "admin"]})) None]> ∅ in
  let r :=
    save_session (RedisSessionStore.init None) 0 stored no_response
      (AioSessionOps.invalidate admin_session) in
  r.2 = Ok tt /\
  load_session (RedisSessionStore.init None) 10 r.1.1.1 cookie_request
  = (r.1.1.1, Ok (fresh_session 10)).
Proof.
  pose proof (save_empty_session_removes_record (RedisSessionStore.init None) 0
                (<[RedisSessionStore._storage_key "0123abcd" :=
                     Entry (RHash (<["created" := "1700000000"]> {["user" := "admin"]})) None]> ∅)
                no_response (AioSessionOps.invalidate admin_session) "0123abcd"
                eq_refl eq_refl) as (H1 & _ & _ & _ & H5).
  split; [exact H1|]. apply H5. reflexivity.
Defined.

(** X19. With an idle expiry, a session that is not loaded for that long
    is gone: a load at or after the deadline of the save gives a new empty
    session, as if nobody had logged in. *)
Theorem idle_session_expires (self : t) (now now1 ms : Z) (d : db)
    (response : Response) (session : Session) (session_id : string)
    (request : Request) :
  identity session = Some session_id ->
  _mapping session ≠ ∅ ->
  idle_session_expiry_msec self = Some ms ->
  0 < ms ->
  now + ms <= now1 ->
  load_cookie self request = Some session_id ->
  let saved := save_session self now d response session in
  saved.2 = Ok tt /\
  load_session self now1 saved.1.1.1 request = (saved.1.1.1, Ok (fresh_session now1)).
Proof.
  intros Hid Hne Hidle Hms Hlate Hcookie. cbv zeta.
  destruct (save_session_stored self now d response session session_id Hid Hne)
    as (d1 & response1 & session1 & Hsave & Hd1 & _).
  { intros ms' Hi. rewrite Hidle in Hi. by injection Hi as <-. }
  rewrite Hsave. simpl. split; [done|].
  apply (load_session_no_record _ _ _ _ session_id Hcookie).
  unfold RedisSharedCache.map_get_entries, hgetall, find. rewrite Hd1.
  unfold live, idle_deadline. rewrite Hidle. simpl.
  rewrite bool_decide_eq_false_2; [done|lia].
Qed.

Lemma idle_session_expires_witness :
  let saved :=
    save_session (RedisSessionStore.init (Some 60000)) 0 ∅ no_response admin_session in
  saved.2 = Ok tt /\
  load_session (RedisSessionStore.init (Some 60000)) 60000 saved.1.1.1 cookie_request
  = (saved.1.1.1, Ok (fresh_session 60000)).
Proof.
  apply (idle_session_expires (RedisSessionStore.init (Some 60000)) 0 60000 60000 ∅
           no_response admin_session "0123abcd" cookie_request).
  - reflexivity.
  - apply insert_non_empty.
  - reflexivity.
  - lia.
  - lia.
  - reflexivity.
Defined.

Lemma load_at_within_idle (self : t) (request : Request) (session_id : string)
    (data : gmap string string) (c : Z) (times : list Z) (last : Z) (d : db) :
  load_cookie self request = Some session_id ->
  data !! "created" = Some (Py.str_of_int c) ->
  (forall ms, idle_session_expiry_msec self = Some ms -> 0 < ms /\ within_idle ms last times) ->
  d !! _storage_key session_id = Some (Entry (RHash data) (idle_deadline self last)) ->
  Forall (fun r => r = Ok {| identity := Some session_id;
                             _mapping := delete "created" data;
                             new := false; created := c; max_age := None |})
    (load_at self request d times).2.
Proof.
  intros Hcookie Hcr. revert last d.
  induction times as [|now later IH]; intros last d Hms Hd; simpl; [constructor|].
  assert (Hpos : forall ms, idle_session_expiry_msec self = Some ms -> 0 < ms).
  { intros ms Hi. by destruct (Hms ms Hi). }
  assert (Hf : find now d (_storage_key session_id)
               = Some (Entry (RHash data) (idle_deadline self last))).
  { apply find_at_deadline; [done|]. intros ms Hi.
    destruct (Hms ms Hi) as [_ Hw]. simpl in Hw. by destruct Hw. }
  rewrite (load_session_stored self now d request session_id data _ c Hcookie Hf Hcr Hpos).
  set (d1 := match idle_session_expiry_msec self with
             | Some ms => <[_storage_key session_id := Entry (RHash data) (Some (now + ms))]> d
             | None => d
             end).
  assert (Hd1 : d1 !! _storage_key session_id
                = Some (Entry (RHash data) (idle_deadline self now))).
  { unfold d1, idle_deadline in *. destruct (idle_session_expiry_msec self); simpl in *.
    - apply lookup_insert_eq.
    - done. }
  specialize (IH now d1).
  destruct (load_at self request d1 later) as [d2 rs]. simpl. constructor; [done|].
  apply IH; [|done]. intros ms Hi. destruct (Hms ms Hi) as [Hp Hw]. simpl in Hw.
  split; [done|]. by destruct Hw.
Qed.

(** X20. The expiry slides: after a save, every load of a run of loads
    gives back the session, however long the run lasts, as long as each
    load comes within the idle time of the one before it (and the first
    within the idle time of the save). *)
Theorem idle_expiry_slides (self : t) (now : Z) (d : db) (response : Response)
    (session : Session) (session_id : string) (request : Request) (times : list Z) :
  identity session = Some session_id ->
  _mapping session ≠ ∅ ->
  _mapping session !! "created" = None ->
  load_cookie self request = Some session_id ->
  (forall ms, idle_session_expiry_msec self = Some ms -> 0 < ms /\ within_idle ms now times) ->
  let saved := save_session self now d response session in
  saved.2 = Ok tt /\
  Forall (fun r => r = Ok {| identity := Some session_id; _mapping := _mapping session;
                             new := false; created := created session;
                             max_age := None |})
    (load_at self request saved.1.1.1 times).2.
Proof.
  intros Hid Hne Hnc Hcookie Hms. cbv zeta.
  destruct (save_session_stored self now d response session session_id Hid Hne)
    as (d1 & response1 & session1 & Hsave & Hd1 & _).
  { intros ms Hi. by destruct (Hms ms Hi). }
  rewrite Hsave. cbn [fst snd]. split; [done|].
  pose proof (load_at_within_idle self request session_id _ (created session) times now d1
                Hcookie (lookup_insert_eq _ _ _) Hms Hd1) as Hall.
  by rewrite delete_insert_id in Hall.
Qed.

Lemma idle_expiry_slides_witness :
  let saved :=
    save_session (RedisSessionStore.init (Some 60000)) 0 ∅ no_response admin_session in
  saved.2 = Ok tt /\
  Forall (fun r => r = Ok admin_session)
    (load_at (RedisSessionStore.init (Some 60000)) cookie_request saved.1.1.1
       [50000; 100000; 150000; 200000]).2.
Proof.
  apply (idle_expiry_slides (RedisSessionStore.init (Some 60000)) 0 ∅ no_response
           admin_session "0123abcd" cookie_request [50000; 100000; 150000; 200000]).
  - reflexivity.
  - apply insert_non_empty.
  - reflexivity.
  - reflexivity.
  - intros ms [= <-]. simpl. lia.
Defined.

(** X21. A stored record without a [created] field cannot be loaded:
    [load_session] raises [KeyError], and it has refreshed the expiry of
    the record before it notices. *)
Theorem load_session_without_created (self : t) (now : Z) (d : db)
    (request : Request) (session_id : string) (data : gmap string string)
    (t0 : option Z) :
  load_cookie self request = Some session_id ->
  find now d (_storage_key session_id) = Some (Entry (RHash data) t0) ->
  data ≠ ∅ ->
  data !! "created" = None ->
  (forall ms, idle_session_expiry_msec self = Some ms -> 0 < ms) ->
  let r := load_session self now d request in
  r.2 = Raise (KeyError "created") /\
  RedisSharedCache.map_get_entries now r.1 (_storage_key session_id) = Ok data /\
  deadline_at now r.1 (_storage_key session_id)
  = match idle_session_expiry_msec self with
    | Some ms => Some (now + ms)
    | None => t0
    end.
Proof.
  intros Hcookie Hf Hne Hcr Hms. cbv zeta.
  assert (Hload : load_session self now d request
                  = (match idle_session_expiry_msec self with
                     | Some ms => <[_storage_key session_id :=
                                      Entry (RHash data) (Some (now + ms))]> d
                     | None => d
                     end, Raise (KeyError "created"))).
  { unfold load_session. rewrite Hcookie.
    unfold RedisSharedCache.map_get_entries, hgetall. rewrite Hf.
    destruct (decide (size data = 0%nat)) as [Hz|_].
    { by apply map_size_empty_iff in Hz. }
    rewrite Hcr.
    destruct (idle_session_expiry_msec self) as [ms|] eqn:Hidle; [|done].
    unfold RedisSharedCache.expire, pexpire, forget. rewrite Hf.
    specialize (Hms ms eq_refl). by rewrite decide_False by lia. }
  rewrite Hload. cbn [fst snd]. split; [done|].
  unfold RedisSharedCache.map_get_entries, hgetall, deadline_at.
  destruct (idle_session_expiry_msec self) as [ms|] eqn:Hidle.
  - specialize (Hms ms eq_refl).
    rewrite find_insert; [done|]. unfold live. simpl.
    apply bool_decide_eq_true_2. lia.
  - by rewrite Hf.
Qed.

Lemma load_session_without_created_witness :
  let d : db :=
    <[RedisSessionStore._storage_key "0123abcd" := Entry (RHash {["user" := "admin"]}) None]> ∅ in
  (load_session (RedisSessionStore.init (Some 60000)) 0 d cookie_request).2
  = Raise (KeyError "created") /\
  deadline_at 0 (load_session (RedisSessionStore.init (Some 60000)) 0 d cookie_request).1
    (RedisSessionStore._storage_key "0123abcd") = Some 60000.
Proof.
  pose proof (load_session_without_created (RedisSessionStore.init (Some 60000)) 0
                (<[RedisSessionStore._storage_key "0123abcd" :=
                     Entry (RHash {["user" := "admin"]}) None]> ∅)
                cookie_request "0123abcd" {["user" := "admin"]} None
                eq_refl eq_refl (insert_non_empty _ _ _) eq_refl) as Hl.
  destruct Hl as (H1 & _ & H3).
  { intros ms [= <-]. lia. }
  split; [exact H1|exact H3].
Defined.

End SessionMore.

(** ** The gateway: the error middleware, strategies, the port *)

Section GatewayMore.
Import APIService.
Variable http_phrase : Z -> string.


(** X23. A strategy without stored attributes is answered with a 404 JSON
    error that passes the middleware as it is; when the store refuses the
    read, the exception becomes the 500 response of the middleware. *)
Theorem get_strategy_not_found (now : Z) (d : Redis.db) (name engine : string) :
  (RedisSharedCache.map_get_entries now d
     ("moonship." +:+ engine +:+ ".strategies." +:+ name) = Ok ∅ ->
   get_strategy http_phrase now d name engine
   = Ok (_not_found http_phrase "No such strategy") /\
   handle_error http_phrase (get_strategy http_phrase now d name engine)
   = Ok (_not_found http_phrase "No such strategy") /\
   status (_not_found http_phrase "No such strategy") = 404) /\
  (forall msg,
     RedisSharedCache.map_get_entries now d
       ("moonship." +:+ engine +:+ ".strategies." +:+ name) = Raise (ResponseError msg) ->
     handle_error http_phrase (get_strategy http_phrase now d name engine)
     = Ok (_internal_error http_phrase)).
Proof.
  split.
  - intros Hm. unfold get_strategy, _get_strategy. rewrite Hm. by simpl.
  - intros msg Hm. unfold get_strategy, _get_strategy. by rewrite Hm.
Qed.

(** X24. The structure returned for a strategy carries the name and the
    engine it was asked for and the stored configuration under [config],
    also when attributes of those names are stored; every other stored
    attribute comes back as it is; and a configuration without [markets]
    comes back as it is stored. *)
Theorem get_strategy_attributes (now : Z) (d : Redis.db) (name engine : string)
    (attrs cfg : gmap string string) :
  RedisSharedCache.map_get_entries now d
    ("moonship." +:+ engine +:+ ".strategies." +:+ name) = Ok attrs ->
  attrs ≠ ∅ ->
  RedisSharedCache.map_get_entries now d
    (("moonship." +:+ engine +:+ ".strategies." +:+ name) +:+ ".config") = Ok cfg ->
  exists strategy config : gmap string pyval,
    _get_strategy now d name engine = Ok (Some strategy) /\
    strategy !! "name" = Some (PStr name) /\
    strategy !! "engine" = Some (PStr engine) /\
    strategy !! "config" = Some (PDict config) /\
    (forall f, f ≠ "name" -> f ≠ "engine" -> f ≠ "config" ->
       strategy !! f = PStr <$> attrs !! f) /\
    (forall f, f ≠ "markets" -> config !! f = PStr <$> cfg !! f) /\
    (cfg !! "markets" = None -> config = PStr <$> cfg).
Proof.
  intros Ha Hne Hc. unfold _get_strategy. rewrite Ha. cbn [bind].
  destruct (decide (size attrs = 0%nat)) as [Hz|_].
  { by apply map_size_empty_iff in Hz. }
  rewrite Hc. cbn [bind]. eexists _, _. split; [reflexivity|].
  split; [by rewrite lookup_insert_ne, lookup_insert_ne, lookup_insert_eq|].
  split; [by rewrite lookup_insert_ne, lookup_insert_eq|].
  split; [by rewrite lookup_insert_eq|].
  split; [|split].
  - intros f H1 H2 H3. rewrite !lookup_insert_ne by done. apply lookup_fmap.
  - intros f Hf. destruct (cfg !! "markets").
    + rewrite lookup_insert_ne by done. apply lookup_fmap.
    + apply lookup_fmap.
  - by intros ->.
Qed.

End GatewayMore.

Lemma get_strategy_not_found_witness :
  APIService.get_strategy (fun _ => "") 0 ∅ "s1" "x"
  = Ok (APIService._not_found (fun _ => "") "No such strategy").
Proof.
  apply (proj1 (get_strategy_not_found (fun _ => "") 0 ∅ "s1" "x")). reflexivity.
Defined.

Lemma get_strategy_attributes_witness :
  let d : Redis.db :=
    <["moonship.x.strategies.s1" :=
        Redis.Entry (Redis.RHash (<["name" := "other"]> {["status" := "running"]})) None]> ∅ in
  exists strategy : gmap string pyval,
    APIService._get_strategy 0 d "s1" "x" = Ok (Some strategy) /\
    strategy !! "name" = Some (PStr "s1") /\
    strategy !! "status" = Some (PStr "running").
Proof.
  pose proof (get_strategy_attributes 0
              (<["moonship.x.strategies.s1" :=
                   Redis.Entry (Redis.RHash (<["name" := "other"]> {["status" := "running"]}))
                     None]> ∅)
              "s1" "x" (<["name" := "other"]> {["status" := "running"]}) ∅) as Hg.
  destruct Hg as (strategy & config & Hg & Hn & _ & _ & Ho & _).
  - vm_compute. reflexivity.
  - apply insert_non_empty.
  - vm_compute. reflexivity.
  - exists strategy. split; [exact Hg|]. split; [exact Hn|].
    rewrite Ho by discriminate. reflexivity.
Defined.

Section Markets.
Import APIService.

Lemma fields_not_nil (p : ascii -> bool) (s : string) : Py.fields p s ≠ [].
Proof.
  induction s as [|c s IH]; simpl; [done|].
  destruct (p c); [done|]. by destruct (Py.fields p s).
Qed.

Lemma join_cons_String (sep : string) (c : ascii) (w : string) (ws : list string) :
  join sep (String c w :: ws) = String c (join sep (w :: ws)).
Proof. by destruct ws. Qed.

Lemma join_fields (sep : ascii) (s : string) :
  join (String sep EmptyString) (Py.fields (Ascii.eqb sep) s) = s.
Proof.
  induction s as [|c s IH]; simpl; [done|].
  destruct (Ascii.eqb sep c) eqn:Hc.
  - apply Ascii.eqb_eq in Hc. subst c.
    pose proof (fields_not_nil (Ascii.eqb sep) s) as Hn.
    destruct (Py.fields (Ascii.eqb sep) s) as [|w ws]; [done|].
    change (join (String sep "") ("" :: w :: ws))
      with (String sep (join (String sep "") (w :: ws))).
    by rewrite IH.
  - pose proof (fields_not_nil (Ascii.eqb sep) s) as Hn.
    destruct (Py.fields (Ascii.eqb sep) s) as [|w ws]; [done|].
    rewrite join_cons_String. by rewrite IH.
Qed.

Lemma fields_without_separator (p : ascii -> bool) (s : string) :
  Forall (fun f => all_chars (fun c => negb (p c)) f = true) (Py.fields p s).
Proof.
  induction s as [|c s IH]; simpl; [by repeat constructor|].
  destruct (p c) eqn:Hc; [by constructor|].
  destruct (Py.fields p s) as [|w ws]; simpl.
  - repeat constructor. simpl. by rewrite Hc.
  - apply Forall_cons in IH as [Hw Hws]. constructor; [|done].
    simpl. by rewrite Hc, Hw.
Qed.

(** X25. The [markets] list returned for a strategy is never empty, none
    of its names contains a comma, and joined with commas it is the string
    that is stored: the cut loses nothing (an empty string gives the one
    empty name). *)
Theorem markets_list_joins_back (now : Z) (d : Redis.db) (name engine : string)
    (attrs cfg : gmap string string) (markets : string) :
  RedisSharedCache.map_get_entries now d
    ("moonship." +:+ engine +:+ ".strategies." +:+ name) = Ok attrs ->
  attrs ≠ ∅ ->
  RedisSharedCache.map_get_entries now d
    (("moonship." +:+ engine +:+ ".strategies." +:+ name) +:+ ".config") = Ok cfg ->
  cfg !! "markets" = Some markets ->
  exists (strategy config : gmap string pyval) (names : list string),
    _get_strategy now d name engine = Ok (Some strategy) /\
    strategy !! "config" = Some (PDict config) /\
    config !! "markets" = Some (PList (PStr <$> names)) /\
    names ≠ [] /\
    join "," names = markets /\
    Forall (fun n => all_chars (fun c => negb (Ascii.eqb "," c)) n = true) names.
Proof.
  intros Ha Hne Hc Hm.
  eexists _, _, (Py.split_sep "," markets).
  split; [by apply (get_strategy_splits_markets now d name engine attrs cfg markets)|].
  split; [by rewrite lookup_insert_eq|].
  split; [by rewrite lookup_insert_eq|].
  split; [apply fields_not_nil|].
  split; [apply join_fields|apply fields_without_separator].
Qed.

End Markets.

Lemma markets_list_joins_back_witness :
  let d : Redis.db :=
    <["moonship.x.strategies.s1.config" :=
        Redis.Entry (Redis.RHash {["markets" := ""]}) None]>
      (<["moonship.x.strategies.s1" :=
           Redis.Entry (Redis.RHash {["status" := "running"]}) None]> ∅) in
  exists (strategy config : gmap string pyval) (names : list string),
    APIService._get_strategy 0 d "s1" "x" = Ok (Some strategy) /\
    strategy !! "config" = Some (PDict config) /\
    config !! "markets" = Some (PList (PStr <$> names)) /\
    names ≠ [] /\
    join "," names = "" /\
    Forall (fun n => all_chars (fun c => negb (Ascii.eqb "," c)) n = true) names.
Proof.
  apply (markets_list_joins_back 0
           (<["moonship.x.strategies.s1.config" :=
                Redis.Entry (Redis.RHash {["markets" := ""]}) None]>
              (<["moonship.x.strategies.s1" :=
                   Redis.Entry (Redis.RHash {["status" := "running"]}) None]> ∅))
           "s1" "x" {["status" := "running"]} {["markets" := ""]} "").
  - vm_compute. reflexivity.
  - apply insert_non_empty.
  - vm_compute. reflexivity.
  - reflexivity.
Defined.

(** ** The gateway: the port *)

Section Port.
Import Gateway.


End Port.


(** ** The gateway: who gets in *)

Section Access.
Import Redis AioSession RedisSessionStore.

Variable http_phrase : Z -> string.
Variable checkpw : string -> string -> bool.
Variable uuid4_hex : string.

Lemma save_session_emptied (self : t) (now : Z) (d : db) (response : Response)
    (session : Session) (session_id : string) :
  identity session = Some session_id ->
  _mapping session = ∅ ->
  save_session self now d response session
  = (delete (_storage_key session_id) d,
     {| cookie_actions := cookie_actions response ++ [DelCookie (cookie_name self)] |},
     session, Ok tt).
Proof.
  intros Hid Hm. unfold save_session, empty, _storage_key_of. rewrite Hid, Hm.
  rewrite bool_decide_eq_true_2 by done. simpl.
  unfold RedisSharedCache.delete, del, forget.
  by destruct (find now d (_storage_key session_id)).
Qed.

Lemma save_session_cookie (self : t) (now : Z) (d : db) (response : Response)
    (session : Session) :
  _mapping session ≠ ∅ ->
  (save_session self now d response session).1.1.2
  = save_cookie (cookie_name self) response (identity session).
Proof.
  intros Hne. unfold save_session, _get_session_data, empty.
  rewrite bool_decide_eq_false_2 by done.
  destruct (RedisSharedCacheBulkOp.map_put _ _ _) as [b|e]; [|done].
  by destruct (RedisSharedCacheBulkOp.execute _ _ _).
Qed.

Lemma load_session_absent (self : t) (now : Z) (d : db) (request : Request)
    (session_id : string) :
  load_cookie self request = Some session_id ->
  find now d (_storage_key session_id) = None ->
  load_session self now d request = (d, Ok (fresh_session now)).
Proof.
  intros Hc Hf. apply (load_session_no_record _ _ _ _ session_id Hc).
  unfold RedisSharedCache.map_get_entries, hgetall. by rewrite Hf.
Qed.

Lemma verify_session_denies (path : string) (session : Session)
    (handler : result APIService.Response) :
  path ≠ "/login" ->
  new session = true ->
  Gateway.verify_session http_phrase path session handler
  = Ok (APIService._unauthorized http_phrase "Access denied").
Proof.
  intros Hp Hn. unfold Gateway.verify_session. rewrite Hn.
  destruct (String.eqb path "/login") eqn:He; [|done].
  by apply String.eqb_eq in He.
Qed.

(** X27. A request to any path but [/login] that brings no session
    identifier, or one with no live record in the store (never saved,
    removed, or past its idle expiry), is answered 401 "Access denied"
    with the store untouched, and the route's handler has no say in it;
    [/login] always reaches its handler, and so does any path once the
    session is not new. *)
Theorem access_needs_stored_session (self : t) (now : Z) (d : db) (request : Request)
    (path : string) (handler : result APIService.Response) :
  (path ≠ "/login" ->
   (load_cookie self request = None \/
    exists session_id, load_cookie self request = Some session_id /\
                       find now d (_storage_key session_id) = None) ->
   exists session,
     load_session self now d request = (d, Ok session) /\
     Gateway.verify_session http_phrase path session handler
     = Ok (APIService.json_response http_phrase
             (PDict (<["error" := PStr "Access denied"]> (<["status" := PInt 401]> ∅)))
             401)) /\
  (forall session, Gateway.verify_session http_phrase "/login" session handler = handler) /\
  (forall session, new session = false ->
     Gateway.verify_session http_phrase path session handler = handler).
Proof.
  split; [|split].
  - intros Hp Hs. exists (fresh_session now). split.
    + destruct Hs as [Hc|(session_id & Hc & Hf)].
      * by apply load_session_no_identifier.
      * by apply (load_session_absent _ _ _ _ session_id).
    + by apply verify_session_denies.
  - intros session. unfold Gateway.verify_session. done.
  - intros session Hn. unfold Gateway.verify_session. rewrite Hn.
    by rewrite andb_false_r.
Qed.

(** X28. Logging in with the configured user and a password that
    [checkpw] accepts, on a request that had no session: the answer is 200
    with the new identifier as [session_token]; saving the session stores
    it under that identifier and sets the cookie to it; and a later request
    that brings the identifier (as cookie or bearer token) before the idle
    expiry loads a session that is not new, holds the user, and passes
    [verify_session] on every path. *)
Theorem login_opens_session (gw : Gateway.t) (self : t) (now now' : Z) (d : db)
    (response : Response) (req_body : gmap string scalar) (pw : string)
    (request : Request) :
  req_body !! "user" = Some (SStr (Gateway.user gw)) ->
  req_body !! "password" = Some (SStr pw) ->
  checkpw pw (Gateway.password gw) = true ->
  uuid4_hex ≠ "" ->
  load_cookie self request = Some uuid4_hex ->
  (forall ms, idle_session_expiry_msec self = Some ms -> 0 < ms /\ now' < now + ms) ->
  exists rsp session d1 response1 session1 d2 session2,
    Gateway.login http_phrase checkpw uuid4_hex gw (now `div` 1000) (Ok req_body)
      (fresh_session now) = Ok (rsp, session) /\
    APIService.status rsp = 200 /\
    APIService.body rsp = Some (PDict {["session_token" := PStr uuid4_hex]}) /\
    save_session self now d response session = (d1, response1, session1, Ok tt) /\
    cookie_actions response1
    = cookie_actions response ++ [SetCookie (cookie_name self) uuid4_hex] /\
    load_session self now' d1 request = (d2, Ok session2) /\
    identity session2 = Some uuid4_hex /\
    new session2 = false /\
    _mapping session2 = {["user" := Gateway.user gw]} /\
    (forall path handler,
       Gateway.verify_session http_phrase path session2 handler = handler).
Proof.
  intros Hu Hp Hck Hne Hcookie Hms.
  set (session := {| identity := Some uuid4_hex;
                     _mapping := <["user" := Gateway.user gw]> ∅;
                     new := true; created := now `div` 1000; max_age := None |}).
  assert (Hpos : forall ms, idle_session_expiry_msec self = Some ms -> 0 < ms).
  { intros ms Hi. by destruct (Hms ms Hi). }
  assert (Hnonempty : _mapping session ≠ ∅) by apply insert_non_empty.
  destruct (save_session_stored self now d response session uuid4_hex
              eq_refl Hnonempty Hpos) as (d1 & response1 & session1 & Hsave & Hd1 & _).
  pose proof (save_session_cookie self now d response session Hnonempty) as Hck1.
  rewrite Hsave in Hck1. simpl in Hck1.
  assert (Hf : find now' d1 (_storage_key uuid4_hex)
               = Some (Entry (RHash (<["created" := Py.str_of_int (now `div` 1000)]>
                                       (<["user" := Gateway.user gw]> ∅)))
                         (idle_deadline self now))).
  { apply find_at_deadline; [done|]. intros ms Hi. by destruct (Hms ms Hi). }
  pose proof (load_session_stored self now' d1 request uuid4_hex _ _ (now `div` 1000)
                Hcookie Hf (lookup_insert_eq _ _ _) Hpos) as Hload.
  eexists _, session, d1, response1, session1, _, _.
  split.
  { unfold Gateway.login, APIService.dict_get. rewrite Hu, Hp. simpl.
    rewrite String.eqb_refl, Hck. reflexivity. }
  split; [reflexivity|]. split; [reflexivity|].
  split; [exact Hsave|].
  split.
  { rewrite Hck1. unfold save_cookie. simpl.
    destruct uuid4_hex; [done|reflexivity]. }
  split; [exact Hload|].
  split; [reflexivity|]. split; [reflexivity|].
  split.
  { cbn [_mapping]. rewrite delete_insert_eq, insert_empty.
    apply delete_id. by rewrite lookup_singleton_ne. }
  intros path handler. unfold Gateway.verify_session. simpl.
  by rewrite andb_false_r.
Qed.

(** X29. A login with a wrong user or a password that [checkpw] refuses is
    answered 401 "Invalid user or password" and empties the session of the
    request; when that was a stored session, saving it removes the record
    and deletes the cookie, so the identifier no longer gives access: a
    failed login logs out. *)
Theorem failed_login_ends_session (gw : Gateway.t) (self : t) (now_sec now now' : Z)
    (d : db) (response : Response) (req_body : gmap string scalar) (u pw : string)
    (session : Session) (session_id : string) (request : Request) (path : string)
    (handler : result APIService.Response) :
  req_body !! "user" = Some (SStr u) ->
  req_body !! "password" = Some (SStr pw) ->
  u ≠ Gateway.user gw \/ checkpw pw (Gateway.password gw) = false ->
  identity session = Some session_id ->
  load_cookie self request = Some session_id ->
  path ≠ "/login" ->
  exists session1 d1 response1,
    Gateway.login http_phrase checkpw uuid4_hex gw now_sec (Ok req_body) session
    = Ok (APIService._unauthorized http_phrase "Invalid user or password", session1) /\
    _mapping session1 = ∅ /\
    save_session self now d response session1 = (d1, response1, session1, Ok tt) /\
    cookie_actions response1 = cookie_actions response ++ [DelCookie (cookie_name self)] /\
    d1 !! _storage_key session_id = None /\
    load_session self now' d1 request = (d1, Ok (fresh_session now')) /\
    Gateway.verify_session http_phrase path (fresh_session now') handler
    = Ok (APIService._unauthorized http_phrase "Access denied").
Proof.
  intros Hu Hp Hbad Hid Hcookie Hpath.
  eexists (AioSessionOps.invalidate session), _, _.
  split.
  { unfold Gateway.login, APIService.dict_get. rewrite Hu, Hp. simpl.
    destruct Hbad as [Hne|Hck].
    - apply String.eqb_neq in Hne. by rewrite Hne.
    - rewrite Hck. by rewrite andb_false_r. }
  split; [reflexivity|].
  split; [by apply (save_session_emptied _ _ _ _ _ session_id)|].
  split; [reflexivity|].
  split; [apply lookup_delete_eq|].
  split.
  - apply (load_session_absent _ _ _ _ session_id Hcookie). apply find_delete.
  - by apply verify_session_denies.
Qed.

(** X30. Logging out answers 200 and empties the session; saving it removes
    the record and deletes the cookie, and from then on a request with the
    old identifier, whenever it comes, is answered 401 on every path but
    [/login]. *)
Theorem logout_ends_session (self : t) (now now' : Z) (d : db) (response : Response)
    (session : Session) (session_id : string) (request : Request) (path : string)
    (handler : result APIService.Response) :
  identity session = Some session_id ->
  load_cookie self request = Some session_id ->
  path ≠ "/login" ->
  let out := Gateway.logout http_phrase session in
  let saved := save_session self now d response out.2 in
  APIService.status out.1 = 200 /\
  APIService.body out.1 = None /\
  saved.2 = Ok tt /\
  cookie_actions saved.1.1.2 = cookie_actions response ++ [DelCookie (cookie_name self)] /\
  saved.1.1.1 = delete (_storage_key session_id) d /\
  exists session',
    load_session self now' saved.1.1.1 request = (saved.1.1.1, Ok session') /\
    Gateway.verify_session http_phrase path session' handler
    = Ok (APIService._unauthorized http_phrase "Access denied") /\
    APIService.status (APIService._unauthorized http_phrase "Access denied") = 401.
Proof.
  intros Hid Hcookie Hpath out saved.
  assert (Hsaved : saved = (delete (_storage_key session_id) d,
                            {| cookie_actions :=
                                 cookie_actions response ++ [DelCookie (cookie_name self)] |},
                            AioSessionOps.invalidate session, Ok tt)).
  { subst saved out. by apply save_session_emptied. }
  rewrite Hsaved. simpl.
  do 5 (split; [reflexivity|]).
  exists (fresh_session now'). split.
  - apply (load_session_absent _ _ _ _ session_id Hcookie). apply find_delete.
  - split; [by apply verify_session_denies|reflexivity].
Qed.

End Access.

Lemma login_opens_session_witness :
  exists rsp session d1 response1 session1 d2 session2,
    Gateway.login (fun _ => "") String.eqb "0123abcd"
      {| Gateway.user := "admin"; Gateway.password := "secret" |}
      (5000 `div` 1000)
      (Ok (<["user" := SStr "admin"]> {["password" := SStr "secret"]}))
      (fresh_session 5000) = Ok (rsp, session) /\
    APIService.status rsp = 200 /\
    APIService.body rsp = Some (PDict {["session_token" := PStr "0123abcd"]}) /\
    RedisSessionStore.save_session (RedisSessionStore.init (Some 1000)) 5000 ∅
      no_response session = (d1, response1, session1, Ok tt) /\
    AioSession.cookie_actions response1
    = AioSession.cookie_actions no_response
      ++ [AioSession.SetCookie
            (RedisSessionStore.cookie_name (RedisSessionStore.init (Some 1000)))
            "0123abcd"] /\
    RedisSessionStore.load_session (RedisSessionStore.init (Some 1000)) 5500 d1
      cookie_request = (d2, Ok session2) /\
    AioSession.identity session2 = Some "0123abcd" /\
    AioSession.new session2 = false /\
    AioSession._mapping session2
    = {["user" := Gateway.user {| Gateway.user := "admin"; Gateway.password := "secret" |}]} /\
    (forall path handler,
       Gateway.verify_session (fun _ => "") path session2 handler = handler).
Proof.
  apply (login_opens_session (fun _ => "") String.eqb "0123abcd"
           {| Gateway.user := "admin"; Gateway.password := "secret" |}
           (RedisSessionStore.init (Some 1000)) 5000 5500 ∅ no_response
           (<["user" := SStr "admin"]> {["password" := SStr "secret"]})
           "secret" cookie_request).
  - vm_compute. reflexivity.
  - vm_compute. reflexivity.
  - reflexivity.
  - discriminate.
  - vm_compute. reflexivity.
  - intros ms [= <-]. lia.
Defined.

Lemma failed_login_ends_session_witness :
  exists session1 d1 response1,
    Gateway.login (fun _ => "") String.eqb "89abcdef"
      {| Gateway.user := "admin"; Gateway.password := "secret" |}
      1700000100
      (Ok (<["user" := SStr "admin"]> {["password" := SStr "guess"]}))
      admin_session
    = Ok (APIService._unauthorized (fun _ => "") "Invalid user or password", session1) /\
    AioSession._mapping session1 = ∅ /\
    RedisSessionStore.save_session (RedisSessionStore.init None) 1700000100000
      (<[RedisSessionStore._storage_key "0123abcd" :=
           Redis.Entry
             (Redis.RHash (<["created" := "1700000000"]> {["user" := "admin"]})) None]> ∅)
      no_response session1 = (d1, response1, session1, Ok tt) /\
    AioSession.cookie_actions response1
    = AioSession.cookie_actions no_response
      ++ [AioSession.DelCookie
            (RedisSessionStore.cookie_name (RedisSessionStore.init None))] /\
    d1 !! RedisSessionStore._storage_key "0123abcd" = None /\
    RedisSessionStore.load_session (RedisSessionStore.init None) 1700000200000 d1
      cookie_request = (d1, Ok (fresh_session 1700000200000)) /\
    Gateway.verify_session (fun _ => "") "/strategies" (fresh_session 1700000200000)
      (Ok (APIService._ok (fun _ => "") None))
    = Ok (APIService._unauthorized (fun _ => "") "Access denied").
Proof.
  apply (failed_login_ends_session (fun _ => "") String.eqb "89abcdef"
           {| Gateway.user := "admin"; Gateway.password := "secret" |}
           (RedisSessionStore.init None) 1700000100 1700000100000 1700000200000
           (<[RedisSessionStore._storage_key "0123abcd" :=
                Redis.Entry
                  (Redis.RHash (<["created" := "1700000000"]> {["user" := "admin"]}))
                  None]> ∅)
           no_response
           (<["user" := SStr "admin"]> {["password" := SStr "guess"]})
           "admin" "guess" admin_session "0123abcd" cookie_request "/strategies"
           (Ok (APIService._ok (fun _ => "") None))).
  - vm_compute. reflexivity.
  - vm_compute. reflexivity.
  - right. reflexivity.
  - reflexivity.
  - vm_compute. reflexivity.
  - discriminate.
Defined.

Lemma logout_ends_session_witness :
  let d : Redis.db :=
    <[RedisSessionStore._storage_key "0123abcd" :=
        Redis.Entry
          (Redis.RHash (<["created" := "1700000000"]> {["user" := "admin"]})) None]> ∅ in
  let out := Gateway.logout (fun _ => "") admin_session in
  let saved :=
    RedisSessionStore.save_session (RedisSessionStore.init None) 1700000100000 d
      no_response out.2 in
  APIService.status out.1 = 200 /\
  APIService.body out.1 = None /\
  saved.2 = Ok tt /\
  AioSession.cookie_actions saved.1.1.2
  = AioSession.cookie_actions no_response
    ++ [AioSession.DelCookie
          (RedisSessionStore.cookie_name (RedisSessionStore.init None))] /\
  saved.1.1.1 = delete (RedisSessionStore._storage_key "0123abcd") d /\
  exists session',
    RedisSessionStore.load_session (RedisSessionStore.init None) 1700000200000
      saved.1.1.1 cookie_request = (saved.1.1.1, Ok session') /\
    Gateway.verify_session (fun _ => "") "/strategies" session'
      (Ok (APIService._ok (fun _ => "") None))
    = Ok (APIService._unauthorized (fun _ => "") "Access denied") /\
    APIService.status (APIService._unauthorized (fun _ => "") "Access denied") = 401.
Proof.
  apply (logout_ends_session (fun _ => "") (RedisSessionStore.init None)
           1700000100000 1700000200000
           (<[RedisSessionStore._storage_key "0123abcd" :=
                Redis.Entry
                  (Redis.RHash (<["created" := "1700000000"]> {["user" := "admin"]}))
                  None]> ∅)
           no_response admin_session "0123abcd" cookie_request "/strategies"
           (Ok (APIService._ok (fun _ => "") None))).
  - reflexivity.
  - vm_compute. reflexivity.
  - discriminate.
Defined.
